(** * nGraph: the PriorBoxClustered inference rule and the VisualizeTree
      height / jump-distance analysis

    Shallow embedding of
    - [src/ngraph/op/experimental/layers/prior_box_clustered.cpp]
    - [src/ngraph/pass/visualize_tree.cpp]

    Machine integers are carried as [Z] with their wrap-around written out,
    C++ exceptions as the left summand of a result type, [std::unordered_map]
    as a [gmap], and the node graph as a store of node records addressed by
    node pointers. *)

From Stdlib Require Import ZArith Lia Ascii String.
From stdpp Require Import gmap strings list fin_maps pretty.

Local Open Scope Z_scope.

(** ** Fixed-width integers *)

Module Int64.

Definition modulus : Z := 2 ^ 64.
Definition half_modulus : Z := 2 ^ 63.

(** [size_t] / [uint64_t]: arithmetic modulo 2^64. *)
Definition to_u64 (z : Z) : Z := z mod modulus.
Definition mul_u64 (a b : Z) : Z := to_u64 (a * b).

(** [int64_t]: two's complement wrap-around. *)
Definition wrap (z : Z) : Z := (z + half_modulus) mod modulus - half_modulus.
Definition add (a b : Z) : Z := wrap (a + b).
Definition sub (a b : Z) : Z := wrap (a - b).
Definition mul (a b : Z) : Z := wrap (a * b).
Definition abs (a : Z) : Z := wrap (Z.abs a).

Definition in_range (z : Z) : Prop := - half_modulus <= z < half_modulus.

End Int64.

(** ** Shape / type model *)

Module element.

(** Modelled from the spec: the element-type enumeration lives in
    [ngraph/type/element_type.hpp], which is not part of the sources at
    hand.  "An enumerated scalar kind (e.g., 64-bit integer, 32-bit float)",
    with a distinguished "any" kind, here [dynamic]. *)
Inductive Type_t : Set :=
| dynamic | boolean | bf16 | f32 | f64
| i8 | i16 | i32 | i64 | u8 | u16 | u32 | u64.

#[global] Instance Type_t_eq_dec : EqDecision Type_t.
Proof. solve_decision. Defined.

Definition is_dynamic (t : Type_t) : bool :=
  match t with dynamic => true | _ => false end.

(** Modelled from the spec: "[compatible(a, b)] for element types returns
    true iff they are identical or either is any". *)
Definition compatible (a b : Type_t) : bool :=
  is_dynamic a || is_dynamic b || bool_decide (a = b).

End element.

(** Modelled from the spec: [Dimension] / [Rank] come from
    [ngraph/dimension.hpp] and [ngraph/rank.hpp] (not among the sources):
    a per-dimension value is "either a concrete size or unknown", and a rank
    "itself may be unknown". *)
Module Dimension.

Inductive t : Set :=
| dynamic
| static (n : Z).

#[global] Instance t_eq_dec : EqDecision t.
Proof. solve_decision. Defined.

Definition is_dynamic (d : t) : bool :=
  match d with dynamic => true | static _ => false end.

Definition compatible (a b : t) : bool :=
  is_dynamic a || is_dynamic b || bool_decide (a = b).

End Dimension.

Definition Rank : Set := Dimension.t.

(** [Shape]: a vector of [size_t] dimension sizes. *)
Definition Shape : Type := list Z.

(** Modelled from the spec: [shape_size] is declared in [ngraph/shape.hpp]
    (not among the sources): the product of the dimensions, taken in
    [size_t]; the empty shape is a scalar of size 1. *)
Definition shape_size (s : Shape) : Z :=
  fold_left Int64.mul_u64 s 1.

Module PartialShape.

(** Modelled from the spec: [PartialShape] comes from
    [ngraph/partial_shape.hpp] (not among the sources): "either fully
    dynamic (unknown rank), or a sequence of per-dimension values each
    either a concrete size or unknown". *)
Inductive t : Type :=
| rank_dynamic
| ranked (dims : list Dimension.t).

#[global] Instance t_eq_dec : EqDecision t.
Proof. solve_decision. Defined.

(** The [rank] accessor, which "itself may be unknown". *)
Definition rank (s : t) : Rank :=
  match s with
  | rank_dynamic => Dimension.dynamic
  | ranked dims => Dimension.static (Z.of_nat (length dims))
  end.

(** [PartialShape::dynamic(Rank r = Rank::dynamic())]: the shape of rank
    [r] with every dimension unknown; without a rank it is the fully
    dynamic shape. *)
Definition dynamic_of_rank (r : Rank) : t :=
  match r with
  | Dimension.dynamic => rank_dynamic
  | Dimension.static n => ranked (replicate (Z.to_nat n) Dimension.dynamic)
  end.

Definition dynamic : t := dynamic_of_rank Dimension.dynamic.

(** "A concrete Shape is always convertible to a PartialShape." *)
Definition of_shape (s : Shape) : t := ranked (Dimension.static <$> s).

End PartialShape.

(** ** Validation failures *)

(** The pieces streamed into the explanation of a failed
    [NODE_VALIDATION_CHECK]. *)
Inductive Piece : Type :=
| Str (s : string)
| Ty (et : element.Type_t)
| Rk (r : Rank)
| Sz (n : Z)
| Shp (s : Shape).

#[global] Instance Piece_eq_dec : EqDecision Piece.
Proof. solve_decision. Defined.

Inductive Failure : Type :=
| NodeValidationFailure (node_description : string) (explanation : list Piece)
| out_of_range.

#[global] Instance Failure_eq_dec : EqDecision Failure.
Proof. solve_decision. Defined.

(** A computation that either throws or returns. *)
Definition Result (A : Type) : Type := Failure + A.

Definition throw {A : Type} (e : Failure) : Result A := inl e.
Definition ok {A : Type} (a : A) : Result A := inr a.

Definition and_then {A B : Type} (r : Result A) (k : A -> Result B) : Result B :=
  match r with
  | inl e => inl e
  | inr a => k a
  end.

Notation "x <- r ;;; k" := (and_then r (fun x => k))
  (at level 90, r at level 89, right associativity).
Notation "r ;;; k" := (and_then r (fun _ => k))
  (at level 90, right associativity).

(** Modelled from the spec: the macro [NODE_VALIDATION_CHECK] is defined in
    [ngraph/node.hpp] (not among the sources).  A failed check raises a
    validation error that "carries the failing node's intended kind ... and
    the expected-vs-actual description": the node's description and the
    pieces given to the macro. *)
Definition NODE_VALIDATION_CHECK (node_description : string) (cond : bool)
    (explanation : list Piece) : Result unit :=
  if cond then ok tt else throw (NodeValidationFailure node_description explanation).

(** ** op::PriorBoxClustered *)

Module op.

(** *** Argument nodes *)

(** [float] attribute values are only stored and copied, never computed on:
    they are carried as their IEEE binary32 bit patterns. *)
Definition float : Type := Z.

(** [op::Constant]: its static shape and the buffer behind [get_data_ptr],
    read as [int64_t]. *)
Record Constant : Type := {
  get_shape : Shape;
  get_data_ptr : list Z
}.

(** A node as seen through an argument edge.  The constructor passes its
    arguments through [check_single_output_args], so an argument is a node
    with exactly one output: that output's element type and partial shape
    are fields of the argument itself.  [as_Constant] is the result of
    [dynamic_pointer_cast<op::Constant>]. *)
Record Node : Type := {
  description : string;
  get_element_type : element.Type_t;
  get_partial_shape : PartialShape.t;
  as_Constant : option Constant
}.

(** A constant node is consistent with its payload: its output has the
    payload's static shape and a static element type, and the buffer holds
    [shape_size] elements. *)
Definition Constant_consistent (n : Node) : Prop :=
  match as_Constant n with
  | None => True
  | Some c =>
      get_partial_shape n = PartialShape.of_shape (get_shape c)
      /\ get_element_type n <> element.dynamic
      /\ Z.of_nat (length (get_data_ptr c)) = shape_size (get_shape c)
  end.

(** *** The node *)

Record PriorBoxClustered : Type := {
  get_arguments : list Node;
  m_num_priors : Z;
  m_widths : list float;
  m_heights : list float;
  m_clip : bool;
  m_step_widths : float;
  m_step_heights : float;
  m_offset : float;
  m_variances : list float;
  (* per-input flag set by set_input_is_relevant_to_shape *)
  m_input_is_relevant_to_shape : list bool;
  (* output descriptors: element type and partial shape *)
  m_outputs : list (element.Type_t * PartialShape.t)
}.

Definition PriorBoxClustered_description : string := "PriorBoxClustered".

(** Modelled from the spec: [get_argument], [get_input_element_type] and
    [get_input_partial_shape] are members of [Node] ([ngraph/node.hpp], not
    among the sources).  Inputs are "ordered, each referencing one output of
    another node": input [i] reads the output of argument [i], and an index
    past the last input raises. *)
Definition get_argument (this : PriorBoxClustered) (i : nat) : Result Node :=
  match get_arguments this !! i with
  | Some a => ok a
  | None => throw out_of_range
  end.

Definition get_input_element_type (this : PriorBoxClustered) (i : nat)
    : Result element.Type_t :=
  a <- get_argument this i ;;; ok (get_element_type a).

Definition get_input_partial_shape (this : PriorBoxClustered) (i : nat)
    : Result PartialShape.t :=
  a <- get_argument this i ;;; ok (get_partial_shape a).

Definition with_flags (this : PriorBoxClustered) (flags : list bool)
    : PriorBoxClustered :=
  {| get_arguments := get_arguments this;
     m_num_priors := m_num_priors this;
     m_widths := m_widths this;
     m_heights := m_heights this;
     m_clip := m_clip this;
     m_step_widths := m_step_widths this;
     m_step_heights := m_step_heights this;
     m_offset := m_offset this;
     m_variances := m_variances this;
     m_input_is_relevant_to_shape := flags;
     m_outputs := m_outputs this |}.

Definition with_outputs (this : PriorBoxClustered)
    (outs : list (element.Type_t * PartialShape.t)) : PriorBoxClustered :=
  {| get_arguments := get_arguments this;
     m_num_priors := m_num_priors this;
     m_widths := m_widths this;
     m_heights := m_heights this;
     m_clip := m_clip this;
     m_step_widths := m_step_widths this;
     m_step_heights := m_step_heights this;
     m_offset := m_offset this;
     m_variances := m_variances this;
     m_input_is_relevant_to_shape := m_input_is_relevant_to_shape this;
     m_outputs := outs |}.

(** Modelled from the spec: a member of [Node] (not among the sources).
    "Each node declares, per input index, whether that input's output shape
    is relevant to computing this node's own output shape." *)
Definition set_input_is_relevant_to_shape (i : nat) (this : PriorBoxClustered)
    : PriorBoxClustered :=
  with_flags this (<[i := true]> (m_input_is_relevant_to_shape this)).

(** Modelled from the spec: a member of [Node] (not among the sources), by
    which an inference rule "sets each output's element type and
    PartialShape": descriptor [i] is created if the node has none yet, and
    overwritten. *)
Definition set_output_type (i : nat) (et : element.Type_t) (ps : PartialShape.t)
    (this : PriorBoxClustered) : PriorBoxClustered :=
  let outs := m_outputs this in
  let grown :=
    outs ++ replicate (S i - length outs) (element.dynamic, PartialShape.dynamic) in
  with_outputs this (<[i := (et, ps)]> grown).

(** [layer_shape[i]] on the constant's buffer. *)
Definition read_i64 (buf : list Z) (i : nat) : Z := nth i buf 0.

(** The second extent of the static output shape:
    [4 * layer_shape[0] * layer_shape[1] * m_num_priors].  The first two
    products are [int64_t] products; the last one has a [size_t] operand, so
    the left operand is converted to [size_t] and the product is unsigned. *)
Definition prior_boxes_extent (h w num_priors : Z) : Z :=
  Int64.mul_u64 (Int64.to_u64 (Int64.mul (Int64.mul 4 h) w)) num_priors.

Definition validate_and_infer_types (this : PriorBoxClustered)
    : Result PriorBoxClustered :=
  let CHECK := NODE_VALIDATION_CHECK PriorBoxClustered_description in
  (* shape node should have integer data type. For now we only allow i64 *)
  layer_shape_et <- get_input_element_type this 0 ;;;
  CHECK (element.compatible layer_shape_et element.i64)
        [Str "layer shape input must have element type i64, but has ";
         Ty layer_shape_et] ;;;
  image_shape_et <- get_input_element_type this 1 ;;;
  CHECK (element.compatible image_shape_et element.i64)
        [Str "image shape input must have element type i64, but has ";
         Ty image_shape_et] ;;;
  layer_shape <- get_input_partial_shape this 0 ;;;
  image_shape <- get_input_partial_shape this 1 ;;;
  let layer_shape_rank := PartialShape.rank layer_shape in
  let image_shape_rank := PartialShape.rank image_shape in
  CHECK (Dimension.compatible layer_shape_rank image_shape_rank)
        [Str "layer shape input rank "; Rk layer_shape_rank;
         Str " must match image shape input rank "; Rk image_shape_rank] ;;;
  CHECK (Z.of_nat (length (m_widths this)) =? m_num_priors this)
        [Str "Num_priors "; Sz (m_num_priors this);
         Str " doesn't match size of widths vector ";
         Sz (Z.of_nat (length (m_widths this)))] ;;;
  CHECK (Z.of_nat (length (m_heights this)) =? m_num_priors this)
        [Str "Num_priors "; Sz (m_num_priors this);
         Str " doesn't match size of heights vector ";
         Sz (Z.of_nat (length (m_heights this)))] ;;;
  let this := set_input_is_relevant_to_shape 0 this in
  arg0 <- get_argument this 0 ;;;
  match as_Constant arg0 with
  | Some const_shape =>
      CHECK (shape_size (get_shape const_shape) =? 2)
            [Str "Layer shape must have rank 2"; Shp (get_shape const_shape)] ;;;
      let layer_shape := get_data_ptr const_shape in
      (* {Prior boxes, variances-adjusted prior boxes} *)
      ok (set_output_type 0 element.f32
            (PartialShape.of_shape
               [2; prior_boxes_extent (read_i64 layer_shape 0)
                                      (read_i64 layer_shape 1)
                                      (m_num_priors this)])
            this)
  | None =>
      ok (set_output_type 0 element.f32 PartialShape.dynamic this)
  end.

(** The node as the base-class constructor
    [Op("PriorBoxClustered", {layer_shape, image_shape})] and the member
    initialisers leave it: two bound arguments, the attributes stored, no
    output descriptor yet. *)
Definition bind_members (layer_shape image_shape : Node)
    (num_priors : Z) (widths heights : list float) (clip : bool)
    (step_widths step_heights offset : float) (variances : list float)
    : PriorBoxClustered :=
  {| get_arguments := [layer_shape; image_shape];
     m_num_priors := num_priors;
     m_widths := widths;
     m_heights := heights;
     m_clip := clip;
     m_step_widths := step_widths;
     m_step_heights := step_heights;
     m_offset := offset;
     m_variances := variances;
     m_input_is_relevant_to_shape := [false; false];
     m_outputs := [] |}.

(** The constructor; its body is [constructor_validate_and_infer_types()]. *)
Definition PriorBoxClustered_new (layer_shape image_shape : Node)
    (num_priors : Z) (widths heights : list float) (clip : bool)
    (step_widths step_heights offset : float) (variances : list float)
    : Result PriorBoxClustered :=
  validate_and_infer_types
    (bind_members layer_shape image_shape num_priors widths heights clip
                  step_widths step_heights offset variances).

(** *** What a construction looks at, and what it returns *)

Section Construction.

Variables (layer image : Node).
Variables (num_priors : Z) (widths heights : list float) (clip : bool).
Variables (step_widths step_heights offset : float).
Variable variances : list float.

(** The five checks that precede the test for a constant first input. *)
Definition common_checks : bool :=
  element.compatible (get_element_type layer) element.i64
  && element.compatible (get_element_type image) element.i64
  && Dimension.compatible (PartialShape.rank (get_partial_shape layer))
                          (PartialShape.rank (get_partial_shape image))
  && (Z.of_nat (length widths) =? num_priors)
  && (Z.of_nat (length heights) =? num_priors).

(** The node a successful inference returns, given the partial shape it
    settled on: input 0 flagged as relevant to the shape, output 0 typed
    f32 with that shape. *)
Definition inferred (ps : PartialShape.t) : PriorBoxClustered :=
  set_output_type 0 element.f32 ps
    (set_input_is_relevant_to_shape 0
       (bind_members layer image num_priors widths heights clip
          step_widths step_heights offset variances)).

End Construction.

(** Modelled from the spec: [check_new_args_count] is declared in
    [ngraph/node.hpp] (not among the sources): "the replacement list's length
    must exactly equal the original's input arity, else this fails with an
    arity-mismatch error", a validation error carrying the expected and the
    actual count. *)
Definition check_new_args_count (this : PriorBoxClustered) (new_args : list Node)
    : Result unit :=
  NODE_VALIDATION_CHECK PriorBoxClustered_description
    (bool_decide (length new_args = length (get_arguments this)))
    [Str "copy_with_new_args() expected ";
     Sz (Z.of_nat (length (get_arguments this)));
     Str " arguments but got "; Sz (Z.of_nat (length new_args))].

(** [new_args.at(i)] *)
Definition at_ (new_args : list Node) (i : nat) : Result Node :=
  match new_args !! i with
  | Some a => ok a
  | None => throw out_of_range
  end.

Definition copy_with_new_args (this : PriorBoxClustered) (new_args : list Node)
    : Result PriorBoxClustered :=
  check_new_args_count this new_args ;;;
  a0 <- at_ new_args 0 ;;;
  a1 <- at_ new_args 1 ;;;
  PriorBoxClustered_new a0 a1
    (m_num_priors this) (m_widths this) (m_heights this) (m_clip this)
    (m_step_widths this) (m_step_heights this) (m_offset this)
    (m_variances this).

(** *** Concrete nodes *)

(** An i64 [op::Constant] of shape [shape] holding [data]. *)
Definition constant_i64 (shape : Shape) (data : list Z) : Node :=
  {| description := "Constant";
     get_element_type := element.i64;
     get_partial_shape := PartialShape.of_shape shape;
     as_Constant := Some {| get_shape := shape; get_data_ptr := data |} |}.

(** An [op::Parameter] of element type [et] and static shape [shape]. *)
Definition parameter (et : element.Type_t) (shape : Shape) : Node :=
  {| description := "Parameter";
     get_element_type := et;
     get_partial_shape := PartialShape.of_shape shape;
     as_Constant := None |}.

(** [PriorBoxClustered(layer, image, num_priors, widths, heights, false, 0, 0, 0, {})]
    with all-zero attribute values. *)
Definition prior_box (layer image : Node) (num_priors : Z) (widths heights : list float)
    : Result PriorBoxClustered :=
  PriorBoxClustered_new layer image num_priors widths heights false 0 0 0 [].

End op.

(** ** pass::VisualizeTree *)

Module pass.

(** *** The node graph as a store *)

(** [Node*] and [shared_ptr<Node>]: the address of a node. *)
Definition NodePtr : Set := nat.

(** [Input<Node>]: the consuming node and the index of its input. *)
Record Input : Type := {
  get_node : NodePtr;
  get_index : nat
}.

(** [Output<Node>]: its element type and partial shape, and the inputs it
    feeds ([get_target_inputs]). *)
Record Output : Type := {
  get_target_inputs : list Input;
  get_element_type : element.Type_t;
  get_partial_shape : PartialShape.t
}.

Record Node : Type := {
  description : string;
  type_index : string;
  get_name : string;
  get_arguments : list NodePtr;
  outputs : list Output;
  is_output : bool;
  (* [get_n()] when the node is an op::GetOutputElement *)
  as_GetOutputElement : option Z
}.

Record Function : Type := {
  get_ops : list NodePtr
}.

Definition null_node : Node :=
  {| description := EmptyString;
     type_index := EmptyString;
     get_name := EmptyString;
     get_arguments := [];
     outputs := [];
     is_output := false;
     as_GetOutputElement := None |}.

(** Dereferencing: every pointer the pass follows is owned by the function
    being visualised, so it is bound in the store. *)
Definition deref (heap : gmap NodePtr Node) (p : NodePtr) : Node :=
  default null_node (heap !! p).

(** The nodes reached by
    [for output in node->outputs() / for input in output.get_target_inputs()],
    in iteration order. *)
Definition target_nodes (n : Node) : list NodePtr :=
  output ← outputs n; input ← get_target_inputs output; [get_node input].

(** *** class HeightMap *)

Record HeightMap : Type := {
  m_heights : gmap NodePtr Z
}.

(** [HeightMap()] *)
Definition HeightMap_new : HeightMap := {| m_heights := ∅ |}.

(** [HeightMap(std::set<Node*> initials)] *)
Definition HeightMap_of (initials : gset NodePtr) : HeightMap :=
  {| m_heights := fold_left (fun heights n => <[n := 0]> heights)
                            (elements initials) ∅ |}.

(** One iteration of the loop of [absorb]:
    [m_heights[k] = std::max(m_heights[k], v + 1)], where [m_heights[k]]
    value-initialises a missing entry to 0 and [v + 1] is an [int64_t] sum. *)
Definition absorb_entry (heights : gmap NodePtr Z) (p : NodePtr * Z)
    : gmap NodePtr Z :=
  let k := p.1 in
  let v := p.2 in
  <[k := Z.max (default 0 (heights !! k)) (Int64.add v 1)]> heights.

Definition absorb (self other : HeightMap) : HeightMap :=
  {| m_heights := fold_left absorb_entry (map_to_list (m_heights other))
                            (m_heights self) |}.

(** One iteration of the loop of [max_jump_to]. *)
Definition max_jump_entry (target : gmap NodePtr Z) (result : Z) (p : NodePtr * Z)
    : Z :=
  let k := p.1 in
  let v := p.2 in
  match target !! k with
  | Some t => Z.max result (Int64.abs (Int64.sub t v))
  | None => result
  end.

Definition max_jump_to (self target : HeightMap) : Z :=
  fold_left (max_jump_entry (m_heights target)) (map_to_list (m_heights self)) 0.

(** *** The height analysis of [run_on_module] *)

(** [height_maps[p]] read through [operator[]]: a missing entry is a
    default-constructed (empty) [HeightMap].  The entry that [operator[]]
    inserts on such a read is left out: every later access goes through
    [operator[]] again and would find the same empty map. *)
Definition at_ (height_maps : gmap NodePtr HeightMap) (p : NodePtr) : HeightMap :=
  default HeightMap_new (height_maps !! p).

(** The first loop over [f->get_ops()]. *)
Definition seed (heap : gmap NodePtr Node) (node : NodePtr) : HeightMap :=
  if String.eqb (description (deref heap node)) "Result"
  then HeightMap_of {[ node ]}
  else HeightMap_new.

Definition seed_height_maps (heap : gmap NodePtr Node) (ops : list NodePtr)
    : gmap NodePtr HeightMap :=
  fold_left (fun height_maps node => <[node := seed heap node]> height_maps) ops ∅.

(** [height_maps[node.get()].absorb(height_maps[target_node])] *)
Definition absorb_target (node : NodePtr) (height_maps : gmap NodePtr HeightMap)
    (target_node : NodePtr) : gmap NodePtr HeightMap :=
  <[node := absorb (at_ height_maps node) (at_ height_maps target_node)]> height_maps.

(** The body of the loop over the reversed topological order. *)
Definition absorb_users (heap : gmap NodePtr Node)
    (height_maps : gmap NodePtr HeightMap) (node : NodePtr)
    : gmap NodePtr HeightMap :=
  fold_left (absorb_target node) (target_nodes (deref heap node)) height_maps.


(** *** The pass object and its surroundings *)

(** The members of [VisualizeTree] fixed by its constructor, with the
    callbacks registered in [m_ops_to_details]: a callback receives the node
    and a stream, and is modelled by the text it streams. *)
Record VisualizeTree : Type := {
  m_name : string;
  m_node_modifiers : option (Node -> list string -> list string);
  m_dot_only : bool;
  m_ops_to_details : gmap string (Node -> string)
}.

(** Everything [run_on_module] can read or write: the node graph, the
    process environment, the file system seen through [ofstream] and
    [popen], the mutable members [m_ss] and [m_nodes_with_attributes], and
    the two function-local statics of [get_attributes], which are [None]
    until control first passes their declaration and hold what [getenv]
    returned then. *)
Record World : Type := {
  heap : gmap NodePtr Node;
  environ : gmap string string;
  can_open : string -> bool;
  files : list (string * string);
  commands : list string;
  m_ss : string;
  m_nodes_with_attributes : gset NodePtr;
  nvtos : option (option string);
  nvtot : option (option string)
}.

(** A computation on the world that returns a value or lets an exception
    escape ([None]); what it did to the world before throwing stays done. *)
Definition M (A : Type) : Type := World -> option A * World.

#[global] Instance M_ret : MRet M := fun A a w => (Some a, w).
#[global] Instance M_bind : MBind M :=
  fun A B k m w =>
    let r := m w in
    match r.1 with
    | Some a => k a r.2
    | None => (None, r.2)
    end.

Definition gets {A : Type} (f : World -> A) : M A := fun w => (Some (f w), w).

(** A call that returns [a], or throws when there is none. *)
Definition returning {A : Type} (a : option A) : M A := fun w => (a, w).

Definition getenv (name : string) : M (option string) :=
  gets (fun w => environ w !! name).

Definition load (p : NodePtr) : M Node :=
  gets (fun w => deref (heap w) p).

(** [m_ss << s] *)
Definition ss_put (s : string) : M unit := fun w =>
  (Some tt,
   {| heap := heap w; environ := environ w; can_open := can_open w;
      files := files w; commands := commands w;
      m_ss := m_ss w +:+ s;
      m_nodes_with_attributes := m_nodes_with_attributes w;
      nvtos := nvtos w; nvtot := nvtot w |}).

(** [m_nodes_with_attributes.insert(node)] *)
Definition mark_with_attributes (node : NodePtr) : M unit := fun w =>
  (Some tt,
   {| heap := heap w; environ := environ w; can_open := can_open w;
      files := files w; commands := commands w;
      m_ss := m_ss w;
      m_nodes_with_attributes := {[ node ]} ∪ m_nodes_with_attributes w;
      nvtos := nvtos w; nvtot := nvtot w |}).

(** Writing and closing an opened [ofstream]. *)
Definition write_file (name contents : string) : M unit := fun w =>
  (Some tt,
   {| heap := heap w; environ := environ w; can_open := can_open w;
      files := files w ++ [(name, contents)]; commands := commands w;
      m_ss := m_ss w;
      m_nodes_with_attributes := m_nodes_with_attributes w;
      nvtos := nvtos w; nvtot := nvtot w |}).

(** [popen(cmd, "r")] followed by [pclose]. *)
Definition popen (cmd : string) : M unit := fun w =>
  (Some tt,
   {| heap := heap w; environ := environ w; can_open := can_open w;
      files := files w; commands := commands w ++ [cmd];
      m_ss := m_ss w;
      m_nodes_with_attributes := m_nodes_with_attributes w;
      nvtos := nvtos w; nvtot := nvtot w |}).

(** [static const char* nvtos = getenv("NGRAPH_VISUALIZE_TREE_OUTPUT_SHAPES")]:
    initialised the first time control passes the declaration, then kept. *)
Definition nvtos_static : M (option string) := fun w =>
  match nvtos w with
  | Some cached => (Some cached, w)
  | None =>
      let found := environ w !! "NGRAPH_VISUALIZE_TREE_OUTPUT_SHAPES" in
      (Some found,
       {| heap := heap w; environ := environ w; can_open := can_open w;
          files := files w; commands := commands w;
          m_ss := m_ss w;
          m_nodes_with_attributes := m_nodes_with_attributes w;
          nvtos := Some found; nvtot := nvtot w |})
  end.

(** [static const char* nvtot = getenv("NGRAPH_VISUALIZE_TREE_OUTPUT_TYPES")] *)
Definition nvtot_static : M (option string) := fun w =>
  match nvtot w with
  | Some cached => (Some cached, w)
  | None =>
      let found := environ w !! "NGRAPH_VISUALIZE_TREE_OUTPUT_TYPES" in
      (Some found,
       {| heap := heap w; environ := environ w; can_open := can_open w;
          files := files w; commands := commands w;
          m_ss := m_ss w;
          m_nodes_with_attributes := m_nodes_with_attributes w;
          nvtos := nvtos w; nvtot := Some found |})
  end.

(** A loop over a sequence that threads the locals it updates. *)
Fixpoint for_each {A S : Type} (l : list A) (body : S -> A -> M S) (s : S) : M S :=
  match l with
  | [] => mret s
  | x :: l' => s' ← body s x; for_each l' body s'
  end.

Definition quote : string := String "034"%char EmptyString.
Definition endl : string := String "010"%char EmptyString.

(** [std::to_string] / [operator<<] on an integer. *)
Definition to_string (z : Z) : string := pretty z.

Definition max_jump_distance : Z := 20.

Section VisualizeTree.

(** Collaborators declared outside the sources at hand
    ([ngraph/graph_util.hpp], [ngraph/util.hpp], [ngraph/node.hpp],
    [ngraph/type/element_type.hpp]).  [get_shape] has no [Shape] to return
    for some nodes and throws there: it is a partial function. *)
Variable topological_sort : gmap NodePtr Node -> list NodePtr -> list NodePtr.
Variable traverse_nodes : gmap NodePtr Node -> Function -> list NodePtr.
Variable get_shape : Node -> option Shape.
Variable vector_to_string : Shape -> string.
Variable c_type_string : element.Type_t -> string.
Variable join : list string -> string -> string.

(** Whether the file is compiled with [_WIN32] defined. *)
Variable _WIN32 : bool.

Definition compute_height_maps (heap : gmap NodePtr Node) (f : Function)
    : gmap NodePtr HeightMap :=
  let height_maps := seed_height_maps heap (get_ops f) in
  let nodes := rev (topological_sort heap (get_ops f)) in
  fold_left (absorb_users heap) nodes height_maps.

(** The jump distance of the edge from [arg] to [node]:
    [size_t jump_distance = height_maps[arg].max_jump_to(height_maps[node])]. *)
Definition jump_distance (height_maps : gmap NodePtr HeightMap)
    (arg node : NodePtr) : Z :=
  Int64.to_u64 (max_jump_to (at_ height_maps arg) (at_ height_maps node)).

Definition label_edge (src dst : NodePtr) (arg_index : Z) (jump_distance : Z)
    : M string :=
  labels ← getenv "NGRAPH_VISUALIZE_EDGE_LABELS";
  match labels with
  | Some _ =>
      d ← load dst;
      let output := default 0 (as_GetOutputElement d) in
      mret ("[label=" +:+ quote +:+ " " +:+ to_string output +:+ " -> "
            +:+ to_string arg_index +:+ " " +:+ quote +:+ "]")
  | None =>
      jumps ← getenv "NGRAPH_VISUALIZE_EDGE_JUMP_DISTANCE";
      match jumps with
      | Some _ =>
          if 1 <? jump_distance
          then mret ("[label=" +:+ quote +:+ "jump=" +:+ to_string jump_distance
                     +:+ quote +:+ "]")
          else mret EmptyString
      | None => mret EmptyString
      end
  end.

Definition get_attributes (this : VisualizeTree) (node : NodePtr) : M string :=
  n ← load node;
  let attributes := ["shape=box"] in
  let attributes :=
    if is_output n
    then attributes ++ ["color=crimson"; "penwidth=1.5"]
    else attributes ++ ["color=black"] in
  (* Construct the label attribute *)
  let label := "label=" +:+ quote +:+ get_name n in
  nvtos ← nvtos_static;
  label ← match nvtos with
          | Some _ =>
              (* The shapes of the Outputs of a multi-output op
                 will be printed for its corresponding GetOutputElements *)
              if bool_decide (length (outputs n) ≠ 1%nat)
              then mret (label +:+ " " +:+ "[skipped]")
              else shape ← returning (get_shape n);
                   mret (label +:+ " " +:+ vector_to_string shape)
          | None => mret label
          end;
  nvtot ← nvtot_static;
  let label :=
    match nvtot with
    | Some _ =>
        label +:+ " " +:+
        (match outputs n with
         | [o] => c_type_string (get_element_type o)
         | _ => "[skipped]"
         end)
    | None => label
    end in
  let label :=
    match m_ops_to_details this !! type_index n with
    | Some eh => label +:+ eh n
    | None => label
    end in
  let label := label +:+ quote in
  let attributes := attributes ++ [label] in
  let attributes :=
    match m_node_modifiers this with
    | Some modifier => modifier n attributes
    | None => attributes
    end in
  mret ("    " +:+ get_name n +:+ " [" +:+ join attributes " " +:+ "]" +:+ endl).

Definition add_attributes (this : VisualizeTree) (node : NodePtr) : M string :=
  seen ← gets (fun w => bool_decide (node ∈ m_nodes_with_attributes w));
  if seen : bool then mret EmptyString
  else mark_with_attributes node;; get_attributes this node.

(** The body of the loop over [node->get_arguments()]; the locals it
    updates are [arg_index] and the captured [fake_node_ctr]. *)
Definition draw_edge (this : VisualizeTree)
    (height_maps : gmap NodePtr HeightMap) (node : NodePtr)
    (locals : Z * Z) (arg : NodePtr) : M (Z * Z) :=
  let arg_index := locals.1 in
  let fake_node_ctr := locals.2 in
  let jump_distance := jump_distance height_maps arg node in
  a ← load arg;
  n ← load node;
  if String.eqb (description a) "Constant" || String.eqb (description a) "Parameter"
  then
    let clone_name := "CLONE_" +:+ to_string fake_node_ctr in
    let color := if String.eqb (description a) "Parameter" then "blue" else "black" in
    ss_put ("    " +:+ clone_name +:+ "[shape=" +:+ quote +:+ "box" +:+ quote
            +:+ " style=" +:+ quote +:+ "dashed,filled" +:+ quote
            +:+ " color=" +:+ quote +:+ color +:+ quote
            +:+ " fillcolor=" +:+ quote +:+ "white" +:+ quote
            +:+ " label=" +:+ quote +:+ get_name a +:+ quote +:+ "]" +:+ endl);;
    l ← label_edge arg node arg_index (Int64.wrap jump_distance);
    ss_put ("    " +:+ clone_name +:+ " -> " +:+ get_name n +:+ l +:+ endl);;
    mret (Int64.to_u64 (arg_index + 1), Int64.to_u64 (fake_node_ctr + 1))
  else if max_jump_distance <? jump_distance
  then
    s ← add_attributes this arg; ss_put s;;
    s ← add_attributes this node; ss_put s;;
    let recv_node_name := "RECV_" +:+ to_string fake_node_ctr in
    let send_node_name := "SEND_" +:+ to_string fake_node_ctr in
    ss_put ("    " +:+ recv_node_name +:+ "[shape=" +:+ quote +:+ "box" +:+ quote
            +:+ " style=" +:+ quote +:+ "solid,filled" +:+ quote
            +:+ " fillcolor=" +:+ quote +:+ "#ffcccc" +:+ quote
            +:+ " label=" +:+ quote +:+ "Receive[" +:+ get_name a +:+ "]"
            +:+ quote +:+ "]" +:+ endl);;
    ss_put ("    " +:+ send_node_name +:+ "[shape=" +:+ quote +:+ "box" +:+ quote
            +:+ " style=" +:+ quote +:+ "solid,filled" +:+ quote
            +:+ " fillcolor=" +:+ quote +:+ "#ccffcc" +:+ quote
            +:+ " label=" +:+ quote +:+ "Send[" +:+ get_name n +:+ "]"
            +:+ quote +:+ "]" +:+ endl);;
    l ← label_edge arg node arg_index (Int64.wrap jump_distance);
    ss_put ("    " +:+ get_name a +:+ " -> " +:+ send_node_name +:+ l +:+ endl);;
    l ← label_edge arg node arg_index (Int64.wrap jump_distance);
    ss_put ("    " +:+ recv_node_name +:+ " -> " +:+ get_name n +:+ l +:+ endl);;
    mret (Int64.to_u64 (arg_index + 1), Int64.to_u64 (fake_node_ctr + 1))
  else
    s ← add_attributes this arg; ss_put s;;
    s ← add_attributes this node; ss_put s;;
    l ← label_edge arg node arg_index (Int64.wrap jump_distance);
    ss_put ("    " +:+ get_name a +:+ " -> " +:+ get_name n +:+ l +:+ endl);;
    mret (Int64.to_u64 (arg_index + 1), fake_node_ctr).

(** The lambda handed to [traverse_nodes]; it returns the updated
    [fake_node_ctr]. *)
Definition draw_node (this : VisualizeTree)
    (height_maps : gmap NodePtr HeightMap) (fake_node_ctr : Z) (node : NodePtr)
    : M Z :=
  n ← load node;
  locals ← for_each (get_arguments n) (draw_edge this height_maps node)
                    (0, fake_node_ctr);
  mret locals.2.

(** The body of the loop over [functions]. *)
Definition visualize_function (this : VisualizeTree) (_ : unit) (f : Function)
    : M unit :=
  h ← gets heap;
  let height_maps := compute_height_maps h f in
  for_each (traverse_nodes h f) (draw_node this height_maps) 0;;
  mret tt.

Definition get_file_ext : M string :=
  format ← getenv "NGRAPH_VISUALIZE_TREE_OUTPUT_FORMAT";
  let format := default "dot" format in
  mret (match format with
        | String "." rest => rest
        | _ => format
        end).

Definition render (this : VisualizeTree) : M unit :=
  let dot_file := m_name this +:+ ".dot" in
  out ← gets (fun w => can_open w dot_file);
  if out : bool then
    ss ← gets m_ss;
    write_file dot_file
      ("digraph ngraph" +:+ endl +:+ "{" +:+ endl +:+ ss +:+ "}" +:+ endl);;
    ext ← get_file_ext;
    if negb (m_dot_only this) && negb (String.eqb ext "dot")
    then
      (* #ifndef _WIN32 *)
      if _WIN32 then mret tt
      else popen ("dot -T" +:+ ext +:+ " " +:+ dot_file +:+ " -o" +:+ m_name this
                  +:+ "." +:+ ext)
    else mret tt
  else mret tt.

Definition run_on_module (this : VisualizeTree) (functions : list Function)
    : M bool :=
  for_each functions (visualize_function this) tt;;
  render this;;
  mret false.

End VisualizeTree.

(** *** Orders, bounds and sample graphs *)

(** The index of the first occurrence of [n] in [order]. *)
Fixpoint position (order : list NodePtr) (n : NodePtr) : nat :=
  match order with
  | [] => 0
  | m :: order' => if decide (m = n) then 0 else S (position order' n)
  end.

(** Modelled from the spec: the contract of [topological_sort]
    ([ngraph/graph_util.hpp], not among the sources): "a total order such
    that every node appears after all of its argument nodes". *)
Definition is_topological_order (heap : gmap NodePtr Node)
    (order ops : list NodePtr) : Prop :=
  order ≡ₚ ops
  /\ forall n arg, n ∈ ops -> arg ∈ get_arguments (deref heap n) ->
       (position order arg < position order n)%nat.

(** The number of [absorb] calls the second loop makes over [nodes]. *)
Definition absorb_calls (heap : gmap NodePtr Node) (nodes : list NodePtr) : Z :=
  fold_right
    (fun node calls => Z.of_nat (length (target_nodes (deref heap node))) + calls)
    0 nodes.

(** Every height recorded in [height_maps] lies in [0, bound]. *)
Definition heights_within (bound : Z) (height_maps : gmap NodePtr HeightMap)
    : Prop :=
  forall p hm k v,
    height_maps !! p = Some hm -> m_heights hm !! k = Some v -> 0 <= v <= bound.

(** An output feeding input 0 of each node of [users]. *)
Definition output_to (users : list NodePtr) : Output :=
  {| get_target_inputs :=
       (fun user => {| get_node := user; get_index := 0 |}) <$> users;
     get_element_type := element.f32;
     get_partial_shape := PartialShape.of_shape [2] |}.

(** A single-output node of kind [kind] at no particular address. *)
Definition simple_node (kind name : string) (arguments users : list NodePtr)
    : Node :=
  {| description := kind;
     type_index := kind;
     get_name := name;
     get_arguments := arguments;
     outputs := [output_to users];
     is_output := String.eqb kind "Result";
     as_GetOutputElement := None |}.

(** The path A -> B -> C -> D, with A at address 1 and the only sink, the
    Result D, at address 4. *)
Definition chain_heap : gmap NodePtr Node :=
  list_to_map
    [(1%nat, simple_node "Parameter" "A" [] [2%nat]);
     (2%nat, simple_node "Abs" "B" [1%nat] [3%nat]);
     (3%nat, simple_node "Negative" "C" [2%nat] [4%nat]);
     (4%nat, simple_node "Result" "D" [3%nat] [])].

Definition chain : Function := {| get_ops := [4; 3; 2; 1]%nat |}.

(** A function whose Parameter at address 1 is used by nobody, next to a
    Result at address 3 fed by the Parameter at address 2. *)
Definition unused_parameter_heap : gmap NodePtr Node :=
  list_to_map
    [(1%nat, simple_node "Parameter" "P0" [] []);
     (2%nat, simple_node "Parameter" "P1" [] [3%nat]);
     (3%nat, simple_node "Result" "R" [2%nat] [])].

Definition unused_parameter : Function := {| get_ops := [3; 2; 1]%nat |}.

(** A sort for functions whose [get_ops] lists users before arguments. *)
Definition sort_by_reversal (heap : gmap NodePtr Node) (ops : list NodePtr)
    : list NodePtr := rev ops.

(** A computation that leaves the node graph as it found it. *)
Definition preserves_graph {A : Type} (m : M A) : Prop :=
  forall w, heap (m w).2 = heap w.

(** Every sink recorded anywhere in [height_maps] is a Result node among
    [ops]. *)
Definition sinks_are_results (heap : gmap NodePtr Node) (ops : list NodePtr)
    (height_maps : gmap NodePtr HeightMap) : Prop :=
  forall p k v, m_heights (at_ height_maps p) !! k = Some v ->
    k ∈ ops /\ description (deref heap k) = "Result".

(** A computation that changes nothing at all and returns. *)
Definition reads_only {A : Type} (m : M A) : Prop :=
  forall w, (m w).2 = w /\ is_Some (m w).1.

(** What [nvtos] holds or, before its initialisation, will hold: whether
    [get_attributes] prints output shapes. *)
Definition shape_labels (w : World) : option string :=
  match nvtos w with
  | Some cached => cached
  | None => environ w !! "NGRAPH_VISUALIZE_TREE_OUTPUT_SHAPES"
  end.

(** What drawing may do to the world: append text to [m_ss], add nodes to
    [m_nodes_with_attributes] and initialise the statics, which does not
    change whether shapes are printed; everything else stays. *)
Definition drawn (w w' : World) : Prop :=
  heap w' = heap w
  /\ environ w' = environ w
  /\ can_open w' = can_open w
  /\ files w' = files w
  /\ commands w' = commands w
  /\ (exists s, m_ss w' = m_ss w +:+ s)
  /\ m_nodes_with_attributes w ⊆ m_nodes_with_attributes w'
  /\ shape_labels w' = shape_labels w.

Definition draws_only {A : Type} (m : M A) : Prop :=
  forall w, drawn w (m w).2.

(** The test of [draw_edge] for the two branches that emit a fake node (a
    clone, or a send/receive pair) for the edge from [arg] to [node]. *)
Definition needs_fake_node (heap : gmap NodePtr Node)
    (height_maps : gmap NodePtr HeightMap) (node arg : NodePtr) : bool :=
  String.eqb (description (deref heap arg)) "Constant"
  || String.eqb (description (deref heap arg)) "Parameter"
  || (max_jump_distance <? jump_distance height_maps arg node).

(** The adjustment [get_file_ext] makes to the format it found:
    [if (format[0] == '.') format += 1]. *)
Definition drop_leading_dot (format : string) : string :=
  match format with
  | String "." rest => rest
  | _ => format
  end.

(** A pass object writing to [graph.dot], with no callbacks, and a world
    holding the path A -> B -> C -> D with nothing drawn yet. *)
Definition plain_pass : VisualizeTree :=
  {| m_name := "graph";
     m_node_modifiers := None;
     m_dot_only := false;
     m_ops_to_details := ∅ |}.

Definition chain_world : World :=
  {| heap := chain_heap;
     environ := ∅;
     can_open := fun _ => true;
     files := [];
     commands := [];
     m_ss := EmptyString;
     m_nodes_with_attributes := ∅;
     nvtos := None;
     nvtot := None |}.

(** Modelled from the spec: [Node::get_shape] is declared in
    [ngraph/node.hpp] (not among the sources).  "A concrete Shape is always
    convertible to a PartialShape", not the other way round: a partial shape
    of unknown rank or with an unknown dimension has no [Shape], and the
    accessor, which is for nodes with one output, raises. *)
Definition to_shape (ps : PartialShape.t) : option Shape :=
  match ps with
  | PartialShape.rank_dynamic => None
  | PartialShape.ranked dims =>
      mapM (fun d => match d with
                     | Dimension.static n => Some n
                     | Dimension.dynamic => None
                     end) dims
  end.

Definition get_static_shape (n : Node) : option Shape :=
  match outputs n with
  | [o] => to_shape (get_partial_shape o)
  | _ => None
  end.

(** Nothing [get_attributes] can be asked to describe in [w] makes
    [get_shape] throw: shapes are not printed, or every node with one output
    has a [Shape]. *)
Definition describable (get_shape : Node -> option Shape) (w : World) : Prop :=
  shape_labels w = None
  \/ forall p, length (outputs (deref (heap w) p)) = 1%nat ->
        is_Some (get_shape (deref (heap w) p)).

(** The computation returns, and keeps returning possible, wherever
    everything is describable. *)
Definition returns_when_describable (get_shape : Node -> option Shape)
    {A : Type} (m : M A) : Prop :=
  forall w, describable get_shape w ->
    is_Some (m w).1 /\ describable get_shape (m w).2.

(** A Parameter feeding an op whose single output has the fully dynamic
    shape (as a PriorBoxClustered on a non-constant input has), feeding a
    Result; the environment asks for output shapes in the labels. *)
Definition dynamic_output_heap : gmap NodePtr Node :=
  list_to_map
    [(1%nat, simple_node "Parameter" "P" [] [2%nat]);
     (2%nat, {| description := "PriorBoxClustered";
                type_index := "PriorBoxClustered";
                get_name := "Boxes";
                get_arguments := [1%nat];
                outputs :=
                  [{| get_target_inputs :=
                        [{| get_node := 3%nat; get_index := 0 |}];
                      get_element_type := element.f32;
                      get_partial_shape := PartialShape.dynamic |}];
                is_output := false;
                as_GetOutputElement := None |});
     (3%nat, simple_node "Result" "R" [2%nat] [])].

Definition dynamic_output : Function := {| get_ops := [3; 2; 1]%nat |}.

Definition dynamic_output_world : World :=
  {| heap := dynamic_output_heap;
     environ := {[ "NGRAPH_VISUALIZE_TREE_OUTPUT_SHAPES" := "1" ]};
     can_open := fun _ => true;
     files := [];
     commands := [];
     m_ss := EmptyString;
     m_nodes_with_attributes := ∅;
     nvtos := None;
     nvtot := None |}.

(** A traversal that visits the nodes as [get_ops] lists them. *)
Definition traverse_ops (heap : gmap NodePtr Node) (f : Function) : list NodePtr :=
  get_ops f.

End pass.

(** * Properties *)

(** ** Fixed-width arithmetic *)

Lemma to_u64_small z : 0 <= z < 2 ^ 64 -> Int64.to_u64 z = z.
Proof. intros H. unfold Int64.to_u64, Int64.modulus. apply Z.mod_small. lia. Qed.

Lemma wrap_in_range z : Int64.in_range (Int64.wrap z).
Proof.
  unfold Int64.in_range, Int64.wrap, Int64.modulus, Int64.half_modulus.
  pose proof (Z.mod_pos_bound (z + 2 ^ 63) (2 ^ 64)). lia.
Qed.

Lemma wrap_small z : Int64.in_range z -> Int64.wrap z = z.
Proof.
  unfold Int64.in_range, Int64.wrap, Int64.modulus, Int64.half_modulus.
  intros H. rewrite Z.mod_small; lia.
Qed.

(** The extent computed by the inference rule is the product reduced modulo
    2^64, whatever the intermediate signed products wrapped to. *)
Lemma wrap_congr z : exists k, Int64.wrap z = z + k * 2 ^ 64.
Proof.
  unfold Int64.wrap, Int64.modulus, Int64.half_modulus.
  exists (- ((z + 2 ^ 63) / 2 ^ 64)).
  pose proof (Z.div_mod (z + 2 ^ 63) (2 ^ 64)). lia.
Qed.

Lemma to_u64_congr z : exists k, Int64.to_u64 z = z + k * 2 ^ 64.
Proof.
  unfold Int64.to_u64, Int64.modulus.
  exists (- (z / 2 ^ 64)). pose proof (Z.div_mod z (2 ^ 64)). lia.
Qed.

(** The extent computed by the inference rule is the product reduced modulo
    2^64, whatever the intermediate signed products wrapped to. *)
Lemma prior_boxes_extent_mod h w p :
  op.prior_boxes_extent h w p = (4 * h * w * p) mod 2 ^ 64.
Proof.
  unfold op.prior_boxes_extent, Int64.mul_u64, Int64.mul.
  destruct (wrap_congr (4 * h)) as [k1 ->].
  destruct (wrap_congr ((4 * h + k1 * 2 ^ 64) * w)) as [k2 ->].
  destruct (to_u64_congr ((4 * h + k1 * 2 ^ 64) * w + k2 * 2 ^ 64)) as [k3 ->].
  unfold Int64.to_u64, Int64.modulus.
  replace (((4 * h + k1 * 2 ^ 64) * w + k2 * 2 ^ 64 + k3 * 2 ^ 64) * p)
    with (4 * h * w * p + (k1 * w * p + k2 * p + k3 * p) * 2 ^ 64) by ring.
  apply Z_mod_plus_full.
Qed.

(** ** The inference rule of PriorBoxClustered *)

Section PriorBoxClustered.

Variables (layer image : op.Node).
Variables (num_priors : Z) (widths heights : list op.float) (clip : bool).
Variables (step_widths step_heights offset : op.float).
Variable variances : list op.float.

Local Abbreviation construct :=
  (op.PriorBoxClustered_new layer image num_priors widths heights clip
     step_widths step_heights offset variances).
Local Abbreviation checks :=
  (op.common_checks layer image num_priors widths heights).
Local Abbreviation inferred :=
  (op.inferred layer image num_priors widths heights clip
     step_widths step_heights offset variances).
Local Abbreviation extent c :=
  (op.prior_boxes_extent (op.read_i64 (op.get_data_ptr c) 0)
                         (op.read_i64 (op.get_data_ptr c) 1) num_priors).

Lemma construct_success_constant c :
  op.as_Constant layer = Some c ->
  checks = true ->
  shape_size (op.get_shape c) = 2 ->
  construct = inr (inferred (PartialShape.of_shape [2; extent c])).
Proof.
  unfold op.common_checks, op.PriorBoxClustered_new,
    op.validate_and_infer_types.
  intros Hc Hchk Hsz. repeat (apply andb_prop in Hchk as [Hchk ?]).
  cbn. rewrite Hchk. cbn.
  repeat match goal with H : _ = true |- _ => rewrite H; cbn end.
  rewrite Hc. cbn. rewrite Hsz. reflexivity.
Qed.

Lemma construct_success_dynamic :
  op.as_Constant layer = None ->
  checks = true ->
  construct = inr (inferred PartialShape.dynamic).
Proof.
  unfold op.common_checks, op.PriorBoxClustered_new,
    op.validate_and_infer_types.
  intros Hc Hchk. repeat (apply andb_prop in Hchk as [Hchk ?]).
  cbn. rewrite Hchk. cbn.
  repeat match goal with H : _ = true |- _ => rewrite H; cbn end.
  rewrite Hc. reflexivity.
Qed.

(** A construction that returns has passed every check. *)
Lemma construct_inr_inv node :
  construct = inr node ->
  checks = true
  /\ match op.as_Constant layer with
     | Some c =>
         shape_size (op.get_shape c) = 2
         /\ node = inferred (PartialShape.of_shape [2; extent c])
     | None => node = inferred PartialShape.dynamic
     end.
Proof.
  unfold op.common_checks, op.PriorBoxClustered_new,
    op.validate_and_infer_types.
  cbn.
  destruct (element.compatible (op.get_element_type layer) _); cbn; [|done].
  destruct (element.compatible (op.get_element_type image) _); cbn; [|done].
  destruct (Dimension.compatible _ _); cbn; [|done].
  destruct (Z.of_nat (length widths) =? num_priors); cbn; [|done].
  destruct (Z.of_nat (length heights) =? num_priors); cbn; [|done].
  destruct (op.as_Constant layer) as [c|]; cbn.
  - destruct (shape_size (op.get_shape c) =? 2) eqn:Hsz; cbn; [|done].
    intros [= <-]. apply Z.eqb_eq in Hsz. done.
  - intros [= <-]. done.
Qed.

(** A construction that throws has failed one check, and the exception
    is the validation failure raised by the first check that failed. *)
Lemma construct_inl_inv e :
  construct = inl e ->
  let et0 := op.get_element_type layer in
  let et1 := op.get_element_type image in
  let r0 := PartialShape.rank (op.get_partial_shape layer) in
  let r1 := PartialShape.rank (op.get_partial_shape image) in
  let failed := NodeValidationFailure "PriorBoxClustered" in
  (element.compatible et0 element.i64 = false
   /\ e = failed [Str "layer shape input must have element type i64, but has ";
                  Ty et0])
  \/ (element.compatible et1 element.i64 = false
      /\ e = failed [Str "image shape input must have element type i64, but has ";
                     Ty et1])
  \/ (Dimension.compatible r0 r1 = false
      /\ e = failed [Str "layer shape input rank "; Rk r0;
                     Str " must match image shape input rank "; Rk r1])
  \/ (Z.of_nat (length widths) <> num_priors
      /\ e = failed [Str "Num_priors "; Sz num_priors;
                     Str " doesn't match size of widths vector ";
                     Sz (Z.of_nat (length widths))])
  \/ (Z.of_nat (length heights) <> num_priors
      /\ e = failed [Str "Num_priors "; Sz num_priors;
                     Str " doesn't match size of heights vector ";
                     Sz (Z.of_nat (length heights))])
  \/ (exists c, op.as_Constant layer = Some c
      /\ shape_size (op.get_shape c) <> 2
      /\ e = failed [Str "Layer shape must have rank 2"; Shp (op.get_shape c)]).
Proof.
  unfold op.PriorBoxClustered_new, op.validate_and_infer_types.
  cbn.
  destruct (element.compatible (op.get_element_type layer) _); cbn;
    [|intros [= <-]; auto].
  destruct (element.compatible (op.get_element_type image) _); cbn;
    [|intros [= <-]; auto].
  destruct (Dimension.compatible _ _); cbn; [|intros [= <-]; do 2 right; left; done].
  destruct (Z.of_nat (length widths) =? num_priors) eqn:Hw; cbn;
    [|intros [= <-]; apply Z.eqb_neq in Hw; do 3 right; left; done].
  destruct (Z.of_nat (length heights) =? num_priors) eqn:Hh; cbn;
    [|intros [= <-]; apply Z.eqb_neq in Hh; do 4 right; left; done].
  destruct (op.as_Constant layer) as [c|]; cbn; [|done].
  destruct (shape_size (op.get_shape c) =? 2) eqn:Hsz; cbn; [done|].
  intros [= <-]. apply Z.eqb_neq in Hsz.
  do 5 right. exists c. auto.
Qed.

End PriorBoxClustered.

(** C1 (as amended).  When the first shape input is a constant whose buffer
    holds the two integers [H; W], a construction whose checks pass returns
    a node, and every node a construction returns has the single output
    shape {2, (4*H*W*num_priors) mod 2^64}: the extent is computed in 64-bit
    arithmetic.  It is exactly {2, 4*H*W*num_priors} whenever that product
    lies in [0, 2^64). *)
Theorem prior_box_constant_output_shape
    (layer image : op.Node) (num_priors : Z) (widths heights : list op.float)
    (clip : bool) (step_widths step_heights offset : op.float)
    (variances : list op.float) (c : op.Constant) (H W : Z) :
  op.as_Constant layer = Some c ->
  op.get_data_ptr c = [H; W] ->
  (op.common_checks layer image num_priors widths heights = true ->
   shape_size (op.get_shape c) = 2 ->
   exists node,
     op.PriorBoxClustered_new layer image num_priors widths heights clip
       step_widths step_heights offset variances = inr node)
  /\ (forall node,
        op.PriorBoxClustered_new layer image num_priors widths heights clip
          step_widths step_heights offset variances = inr node ->
        op.m_outputs node =
          [(element.f32,
            PartialShape.of_shape [2; (4 * H * W * num_priors) mod 2 ^ 64])]
        /\ (0 <= 4 * H * W * num_priors < 2 ^ 64 ->
            op.m_outputs node =
              [(element.f32, PartialShape.of_shape [2; 4 * H * W * num_priors])])).
Proof.
  intros Hc Hdata. split.
  - intros Hchk Hsz. eexists. by apply construct_success_constant.
  - intros node Hnode. apply construct_inr_inv in Hnode as [_ Hnode].
    rewrite Hc in Hnode. destruct Hnode as [_ ->].
    rewrite Hdata. cbn [op.read_i64 nth].
    rewrite prior_boxes_extent_mod. split; [reflexivity|].
    intros Hrange. rewrite Z.mod_small by lia. reflexivity.
Qed.

(** The example of the specification: the constant [3, 4] with
    num_priors = 5 gives the output shape {2, 240}. *)
Lemma prior_box_constant_output_shape_witness :
  exists node,
    op.prior_box (op.constant_i64 [2] [3; 4]) (op.parameter element.i64 [2])
                 5 [0; 0; 0; 0; 0] [0; 0; 0; 0; 0] = inr node
    /\ op.m_outputs node = [(element.f32, PartialShape.of_shape [2; 240])].
Proof.
  destruct (prior_box_constant_output_shape
              (op.constant_i64 [2] [3; 4]) (op.parameter element.i64 [2])
              5 [0; 0; 0; 0; 0] [0; 0; 0; 0; 0] false 0 0 0 []
              {| op.get_shape := [2]; op.get_data_ptr := [3; 4] |} 3 4
              eq_refl eq_refl) as [Hex Hout].
  destruct (Hex eq_refl eq_refl) as [node Hnode].
  exists node. split; [exact Hnode|].
  apply (Hout node Hnode). lia.
Defined.

(** C1 as stated fails: the constant [-1, 1] with num_priors = 1 is accepted
    and yields the extent 2^64 - 4, not 4 * (-1) * 1 * 1. *)
Lemma prior_box_constant_output_shape_counterexample :
  op.Constant_consistent (op.constant_i64 [2] [-1; 1])
  /\ exists node,
    op.prior_box (op.constant_i64 [2] [-1; 1]) (op.parameter element.i64 [2])
                 1 [0] [0] = inr node
    /\ op.m_outputs node =
         [(element.f32, PartialShape.of_shape [2; 18446744073709551612])]
    /\ op.m_outputs node <>
         [(element.f32, PartialShape.of_shape [2; 4 * (-1) * 1 * 1])].
Proof.
  split; [by repeat split|].
  eexists. split; [vm_compute; reflexivity|]. split; [reflexivity|]. discriminate.
Qed.

(** C2 (as amended).  When the first shape input is not a constant, a
    construction whose checks pass returns a node, and every node a
    construction returns has the single f32 output with the fully dynamic
    partial shape: its rank is unknown. *)
Theorem prior_box_dynamic_output_shape
    (layer image : op.Node) (num_priors : Z) (widths heights : list op.float)
    (clip : bool) (step_widths step_heights offset : op.float)
    (variances : list op.float) :
  op.as_Constant layer = None ->
  (op.common_checks layer image num_priors widths heights = true ->
   exists node,
     op.PriorBoxClustered_new layer image num_priors widths heights clip
       step_widths step_heights offset variances = inr node)
  /\ (forall node,
        op.PriorBoxClustered_new layer image num_priors widths heights clip
          step_widths step_heights offset variances = inr node ->
        op.m_outputs node = [(element.f32, PartialShape.rank_dynamic)]
        /\ forall et ps, op.m_outputs node !! 0%nat = Some (et, ps) ->
             PartialShape.rank ps = Dimension.dynamic).
Proof.
  intros Hc. split.
  - intros Hchk. eexists. by apply construct_success_dynamic.
  - intros node Hnode. apply construct_inr_inv in Hnode as [_ Hnode].
    rewrite Hc in Hnode. subst node. split; [reflexivity|].
    intros et ps [= <- <-]. reflexivity.
Qed.

(** Two i64 Parameters of shape {2} as shape inputs: the output is f32 with
    the fully dynamic shape. *)
Lemma prior_box_dynamic_output_shape_witness :
  exists node,
    op.prior_box (op.parameter element.i64 [2]) (op.parameter element.i64 [2])
                 1 [0] [0] = inr node
    /\ op.m_outputs node = [(element.f32, PartialShape.rank_dynamic)].
Proof.
  destruct (prior_box_dynamic_output_shape
              (op.parameter element.i64 [2]) (op.parameter element.i64 [2])
              1 [0] [0] false 0 0 0 [] eq_refl) as [Hex Hout].
  destruct (Hex eq_refl) as [node Hnode].
  exists node. split; [exact Hnode|].
  apply (Hout node Hnode).
Defined.

(** C2 as stated fails: with a Parameter as first input the output is not
    the rank-2 shape {?, ?}; its rank is not 2. *)
Lemma prior_box_dynamic_output_shape_counterexample :
  exists node,
    op.prior_box (op.parameter element.i64 [2]) (op.parameter element.i64 [2])
                 1 [0] [0] = inr node
    /\ op.m_outputs node <>
         [(element.f32,
           PartialShape.ranked [Dimension.dynamic; Dimension.dynamic])]
    /\ forall et ps, op.m_outputs node !! 0%nat = Some (et, ps) ->
         PartialShape.rank ps <> Dimension.static 2.
Proof.
  eexists. split; [vm_compute; reflexivity|]. split; [discriminate|].
  intros et ps [= <- <-]. discriminate.
Qed.

(** Every node a construction returns carries the two arguments and the
    attributes it was constructed with. *)
Lemma construct_inr_members
    (layer image : op.Node) (num_priors : Z) (widths heights : list op.float)
    (clip : bool) (step_widths step_heights offset : op.float)
    (variances : list op.float) (node : op.PriorBoxClustered) :
  op.PriorBoxClustered_new layer image num_priors widths heights clip
    step_widths step_heights offset variances = inr node ->
  op.get_arguments node = [layer; image]
  /\ op.m_num_priors node = num_priors
  /\ op.m_widths node = widths
  /\ op.m_heights node = heights
  /\ op.m_clip node = clip
  /\ op.m_step_widths node = step_widths
  /\ op.m_step_heights node = step_heights
  /\ op.m_offset node = offset
  /\ op.m_variances node = variances.
Proof.
  intros Hnode. apply construct_inr_inv in Hnode as [_ Hnode].
  destruct (op.as_Constant layer); [destruct Hnode as [_ ->]|subst node];
    repeat split.
Qed.

(** Reading a case of the list of failed checks back against the checks
    already decided: the case of another check contradicts them, the case of
    the check at hand names the exception thrown. *)
Ltac other_checks_passed_or_failed :=
  let c := fresh "c" in
  let Hc := fresh "Hc" in
  intros [[? ?]|[(? & ? & ?)|[(? & ? & ? & ?)|[(? & ? & ? & ? & ?)
         |[(? & ? & ? & ? & ? & ?)|(? & c & Hc & ? & ?)]]]]];
  try congruence; try done; try (subst; reflexivity);
  try (injection Hc as <-; subst; first [reflexivity | congruence]).

(** C7.  The constructor is the inference rule run on the freshly bound
    node; it throws exactly when one of the checks fails (an element type
    incompatible with i64, incompatible ranks, a widths or heights list whose
    length is not num_priors, a constant first input whose element count is
    not 2); and what it throws is the validation failure of kind
    PriorBoxClustered raised by the first check that fails, in the order of
    the source: its explanation names the input or attribute that check
    looked at, together with the value found.  The last part is an
    equivalence, so that each exception is tied to its check and to all
    earlier checks having passed. *)
Theorem construction_fails_exactly_on_failed_check
    (layer image : op.Node) (num_priors : Z) (widths heights : list op.float)
    (clip : bool) (step_widths step_heights offset : op.float)
    (variances : list op.float) :
  op.PriorBoxClustered_new layer image num_priors widths heights clip
    step_widths step_heights offset variances
  = op.validate_and_infer_types
      (op.bind_members layer image num_priors widths heights clip
         step_widths step_heights offset variances)
  /\ ((exists e,
         op.PriorBoxClustered_new layer image num_priors widths heights clip
           step_widths step_heights offset variances = inl e)
      <->
      (element.compatible (op.get_element_type layer) element.i64 = false
       \/ element.compatible (op.get_element_type image) element.i64 = false
       \/ Dimension.compatible
            (PartialShape.rank (op.get_partial_shape layer))
            (PartialShape.rank (op.get_partial_shape image)) = false
       \/ Z.of_nat (length widths) <> num_priors
       \/ Z.of_nat (length heights) <> num_priors
       \/ exists c, op.as_Constant layer = Some c
                    /\ shape_size (op.get_shape c) <> 2))
  /\ (forall e,
        op.PriorBoxClustered_new layer image num_priors widths heights clip
          step_widths step_heights offset variances = inl e
        <->
        (element.compatible (op.get_element_type layer) element.i64 = false
         /\ e = NodeValidationFailure "PriorBoxClustered"
                  [Str "layer shape input must have element type i64, but has ";
                   Ty (op.get_element_type layer)])
        \/ (element.compatible (op.get_element_type layer) element.i64 = true
            /\ element.compatible (op.get_element_type image) element.i64 = false
            /\ e = NodeValidationFailure "PriorBoxClustered"
                     [Str "image shape input must have element type i64, but has ";
                      Ty (op.get_element_type image)])
        \/ (element.compatible (op.get_element_type layer) element.i64 = true
            /\ element.compatible (op.get_element_type image) element.i64 = true
            /\ Dimension.compatible
                 (PartialShape.rank (op.get_partial_shape layer))
                 (PartialShape.rank (op.get_partial_shape image)) = false
            /\ e = NodeValidationFailure "PriorBoxClustered"
                     [Str "layer shape input rank ";
                      Rk (PartialShape.rank (op.get_partial_shape layer));
                      Str " must match image shape input rank ";
                      Rk (PartialShape.rank (op.get_partial_shape image))])
        \/ (element.compatible (op.get_element_type layer) element.i64 = true
            /\ element.compatible (op.get_element_type image) element.i64 = true
            /\ Dimension.compatible
                 (PartialShape.rank (op.get_partial_shape layer))
                 (PartialShape.rank (op.get_partial_shape image)) = true
            /\ Z.of_nat (length widths) <> num_priors
            /\ e = NodeValidationFailure "PriorBoxClustered"
                     [Str "Num_priors "; Sz num_priors;
                      Str " doesn't match size of widths vector ";
                      Sz (Z.of_nat (length widths))])
        \/ (element.compatible (op.get_element_type layer) element.i64 = true
            /\ element.compatible (op.get_element_type image) element.i64 = true
            /\ Dimension.compatible
                 (PartialShape.rank (op.get_partial_shape layer))
                 (PartialShape.rank (op.get_partial_shape image)) = true
            /\ Z.of_nat (length widths) = num_priors
            /\ Z.of_nat (length heights) <> num_priors
            /\ e = NodeValidationFailure "PriorBoxClustered"
                     [Str "Num_priors "; Sz num_priors;
                      Str " doesn't match size of heights vector ";
                      Sz (Z.of_nat (length heights))])
        \/ (op.common_checks layer image num_priors widths heights = true
            /\ exists c, op.as_Constant layer = Some c
                         /\ shape_size (op.get_shape c) <> 2
                         /\ e = NodeValidationFailure "PriorBoxClustered"
                                  [Str "Layer shape must have rank 2";
                                   Shp (op.get_shape c)])).
Proof.
  split; [reflexivity|]. split; [split|].
  - intros [e He]. apply construct_inl_inv in He. cbn zeta in He.
    destruct He as [[? _]|[[? _]|[[? _]|[[? _]|[[? _]|(c & ? & ? & _)]]]]];
      [left|right; left|do 2 right; left|do 3 right; left|do 4 right; left
      |do 5 right; exists c; split]; assumption.
  - intros Hfail.
    destruct (op.PriorBoxClustered_new layer image num_priors widths heights
                clip step_widths step_heights offset variances)
      as [e|node] eqn:Hr; [by eexists|].
    exfalso. apply construct_inr_inv in Hr as [Hchk Hc].
    unfold op.common_checks in Hchk.
    repeat (apply andb_prop in Hchk as [Hchk ?]).
    destruct Hfail as [?|[?|[?|[?|[?|(c & Hsome & ?)]]]]]; try congruence.
    + lia.
    + lia.
    + rewrite Hsome in Hc. destruct Hc. done.
  - intros e.
    unfold op.PriorBoxClustered_new, op.validate_and_infer_types,
      op.common_checks.
    cbn.
    destruct (element.compatible (op.get_element_type layer) element.i64)
      eqn:H0; cbn;
      [|split; [intros [= <-]; left; done|other_checks_passed_or_failed]].
    destruct (element.compatible (op.get_element_type image) element.i64)
      eqn:H1; cbn;
      [|split; [intros [= <-]; right; left; done|other_checks_passed_or_failed]].
    destruct (Dimension.compatible
                (PartialShape.rank (op.get_partial_shape layer))
                (PartialShape.rank (op.get_partial_shape image)))
      eqn:H2; cbn;
      [|split;
        [intros [= <-]; do 2 right; left; done|other_checks_passed_or_failed]].
    destruct (Z.eqb_spec (Z.of_nat (length widths)) num_priors) as [Hw|Hw]; cbn;
      [|split;
        [intros [= <-]; do 3 right; left; done|other_checks_passed_or_failed]].
    destruct (Z.eqb_spec (Z.of_nat (length heights)) num_priors) as [Hh|Hh]; cbn;
      [|split;
        [intros [= <-]; do 4 right; left; done|other_checks_passed_or_failed]].
    destruct (op.as_Constant layer) as [c|] eqn:Hc; cbn;
      [|split; [done|other_checks_passed_or_failed]].
    destruct (Z.eqb_spec (shape_size (op.get_shape c)) 2) as [Hsz|Hsz]; cbn;
      [split; [done|other_checks_passed_or_failed]|].
    split; [|other_checks_passed_or_failed].
    intros [= <-]. do 5 right. split; [done|]. by exists c.
Qed.

(** C6 (as amended).  For a constructed node, whose input arity is 2:
    a replacement list of any other length makes [copy_with_new_args] throw
    the arity-mismatch validation failure; a list of exactly two arguments
    makes it run the constructor on them with the node's attributes, so the
    copy is bound to those arguments and keeps kind and attributes when the
    constructor's checks accept them, and the constructor's validation
    failure is thrown otherwise. *)
Theorem copy_with_new_args_arity
    (layer image : op.Node) (num_priors : Z) (widths heights : list op.float)
    (clip : bool) (step_widths step_heights offset : op.float)
    (variances : list op.float) (this : op.PriorBoxClustered)
    (new_args : list op.Node) :
  op.PriorBoxClustered_new layer image num_priors widths heights clip
    step_widths step_heights offset variances = inr this ->
  (length new_args <> 2%nat ->
   op.copy_with_new_args this new_args =
     inl (NodeValidationFailure "PriorBoxClustered"
            [Str "copy_with_new_args() expected "; Sz 2;
             Str " arguments but got "; Sz (Z.of_nat (length new_args))]))
  /\ (forall a0 a1, new_args = [a0; a1] ->
        op.copy_with_new_args this new_args =
          op.PriorBoxClustered_new a0 a1 num_priors widths heights clip
            step_widths step_heights offset variances)
  /\ (forall copy, op.copy_with_new_args this new_args = inr copy ->
        op.get_arguments copy = new_args
        /\ op.m_num_priors copy = op.m_num_priors this
        /\ op.m_widths copy = op.m_widths this
        /\ op.m_heights copy = op.m_heights this
        /\ op.m_clip copy = op.m_clip this
        /\ op.m_step_widths copy = op.m_step_widths this
        /\ op.m_step_heights copy = op.m_step_heights this
        /\ op.m_offset copy = op.m_offset this
        /\ op.m_variances copy = op.m_variances this).
Proof.
  intros Hthis.
  apply construct_inr_members in Hthis
    as (Hargs & Hn & Hw & Hh & Hc & Hsw & Hsh & Ho & Hv).
  assert (Hcopy2 : forall a0 a1, new_args = [a0; a1] ->
            op.copy_with_new_args this new_args =
              op.PriorBoxClustered_new a0 a1 num_priors widths heights clip
                step_widths step_heights offset variances).
  { intros a0 a1 ->. unfold op.copy_with_new_args, op.check_new_args_count.
    rewrite Hargs, Hn, Hw, Hh, Hc, Hsw, Hsh, Ho, Hv. reflexivity. }
  split; [|split; [exact Hcopy2|]].
  - intros Hlen. unfold op.copy_with_new_args, op.check_new_args_count.
    rewrite Hargs. cbn [length]. rewrite bool_decide_eq_false_2 by exact Hlen.
    reflexivity.
  - intros copy Hcopy.
    destruct (decide (length new_args = 2%nat)) as [Hlen|Hlen].
    + destruct new_args as [|a0 [|a1 [|? ?]]]; try discriminate Hlen.
      rewrite (Hcopy2 a0 a1 eq_refl) in Hcopy.
      apply construct_inr_members in Hcopy.
      destruct Hcopy as (? & ? & ? & ? & ? & ? & ? & ? & ?).
      repeat split; congruence.
    + unfold op.copy_with_new_args, op.check_new_args_count in Hcopy.
      rewrite Hargs in Hcopy. cbn [length] in Hcopy.
      rewrite bool_decide_eq_false_2 in Hcopy by exact Hlen. discriminate.
Qed.

(** A node built on two Parameters: one replacement argument is an arity
    mismatch, two are handed to the constructor. *)
Lemma copy_with_new_args_arity_witness :
  exists this,
    op.prior_box (op.parameter element.i64 [2]) (op.parameter element.i64 [2])
                 1 [0] [0] = inr this
    /\ op.copy_with_new_args this [op.constant_i64 [2] [3; 4]] =
         inl (NodeValidationFailure "PriorBoxClustered"
                [Str "copy_with_new_args() expected "; Sz 2;
                 Str " arguments but got "; Sz 1])
    /\ op.copy_with_new_args this
         [op.constant_i64 [2] [3; 4]; op.parameter element.i64 [2]] =
       op.prior_box (op.constant_i64 [2] [3; 4]) (op.parameter element.i64 [2])
                    1 [0] [0].
Proof.
  eexists. split; [vm_compute; reflexivity|]. split.
  - refine (proj1 (copy_with_new_args_arity
                     (op.parameter element.i64 [2]) (op.parameter element.i64 [2])
                     1 [0] [0] false 0 0 0 [] _
                     [op.constant_i64 [2] [3; 4]] eq_refl) _).
    cbn. lia.
  - refine (proj1 (proj2 (copy_with_new_args_arity
                     (op.parameter element.i64 [2]) (op.parameter element.i64 [2])
                     1 [0] [0] false 0 0 0 [] _
                     [op.constant_i64 [2] [3; 4]; op.parameter element.i64 [2]]
                     eq_refl)) _ _ eq_refl).
Defined.

(** C6 as stated fails: a replacement list of exactly two arguments whose
    first element is an f32 node does not produce a node; the constructor
    rejects it. *)
Lemma copy_with_new_args_arity_counterexample :
  exists this,
    op.prior_box (op.parameter element.i64 [2]) (op.parameter element.i64 [2])
                 1 [0] [0] = inr this
    /\ op.copy_with_new_args this
         [op.parameter element.f32 [2]; op.parameter element.i64 [2]] =
       inl (NodeValidationFailure "PriorBoxClustered"
              [Str "layer shape input must have element type i64, but has ";
               Ty element.f32]).
Proof.
  eexists. split; [vm_compute; reflexivity|]. vm_compute. reflexivity.
Qed.

(** ** HeightMap *)

Lemma HeightMap_of_singleton n :
  pass.m_heights (pass.HeightMap_of {[ n ]}) = {[ n := 0 ]}.
Proof.
  unfold pass.HeightMap_of. cbn [pass.m_heights].
  rewrite elements_singleton. reflexivity.
Qed.

(** The loop of [absorb], run over any sequence of entries with distinct
    keys: an entry [(k, v)] leaves the larger of the height recorded for [k]
    (0 when there is none) and [v + 1]; other keys are untouched. *)
Lemma fold_absorb_entry_lookup (l : list (pass.NodePtr * Z))
    (heights : gmap pass.NodePtr Z) (k : pass.NodePtr) :
  NoDup l.*1 ->
  fold_left pass.absorb_entry l heights !! k =
    match (list_to_map l : gmap pass.NodePtr Z) !! k with
    | Some v => Some (Z.max (default 0 (heights !! k)) (Int64.add v 1))
    | None => heights !! k
    end.
Proof.
  revert heights. induction l as [|[k' v'] l IH]; intros heights Hnd.
  - reflexivity.
  - apply NoDup_cons in Hnd as [Hk' Hnd].
    cbn [fold_left list_to_map foldr]. rewrite IH by exact Hnd.
    unfold pass.absorb_entry. cbn [fst snd curry].
    destruct (decide (k' = k)) as [->|Hne].
    + rewrite (not_elem_of_list_to_map_1 l k) by exact Hk'.
      rewrite !lookup_insert_eq. reflexivity.
    + rewrite !(lookup_insert_ne _ k' k) by exact Hne. reflexivity.
Qed.

Lemma absorb_lookup (self other : pass.HeightMap) (k : pass.NodePtr) :
  pass.m_heights (pass.absorb self other) !! k =
    match pass.m_heights other !! k with
    | Some v =>
        Some (Z.max (default 0 (pass.m_heights self !! k)) (Int64.add v 1))
    | None => pass.m_heights self !! k
    end.
Proof.
  unfold pass.absorb. cbn [pass.m_heights].
  rewrite fold_absorb_entry_lookup by apply NoDup_fst_map_to_list.
  rewrite list_to_map_to_list. reflexivity.
Qed.

(** [std::unordered_map] fixes no iteration order; the result of [absorb]
    does not depend on it. *)
Lemma absorb_any_order (self other : pass.HeightMap)
    (entries : list (pass.NodePtr * Z)) :
  entries ≡ₚ map_to_list (pass.m_heights other) ->
  fold_left pass.absorb_entry entries (pass.m_heights self) =
    pass.m_heights (pass.absorb self other).
Proof.
  intros Hperm. apply map_eq. intros k.
  assert (Hnd : NoDup entries.*1).
  { rewrite Hperm. apply NoDup_fst_map_to_list. }
  rewrite absorb_lookup, fold_absorb_entry_lookup by exact Hnd.
  rewrite (list_to_map_proper entries _ Hnd Hperm), list_to_map_to_list.
  reflexivity.
Qed.

(** The loop of [max_jump_to] over any sequence of entries: the result is
    the least upper bound of the initial value and of the distances found at
    the keys that [target] records too. *)
Lemma fold_max_jump_entry_spec (l : list (pass.NodePtr * Z))
    (target : gmap pass.NodePtr Z) (r0 : Z) :
  r0 <= fold_left (pass.max_jump_entry target) l r0
  /\ (forall k v t, (k, v) ∈ l -> target !! k = Some t ->
        Int64.abs (Int64.sub t v) <= fold_left (pass.max_jump_entry target) l r0)
  /\ (fold_left (pass.max_jump_entry target) l r0 = r0
      \/ exists k v t, (k, v) ∈ l /\ target !! k = Some t
           /\ fold_left (pass.max_jump_entry target) l r0
              = Int64.abs (Int64.sub t v)).
Proof.
  revert r0. induction l as [|[k' v'] l IH]; intros r0.
  - cbn. split; [lia|]. split; [|by left].
    intros k v t Hin. by apply elem_of_nil in Hin.
  - cbn [fold_left].
    destruct (IH (pass.max_jump_entry target r0 (k', v'))) as (Hle & Hub & Hatt).
    assert (Hstep : r0 <= pass.max_jump_entry target r0 (k', v')).
    { unfold pass.max_jump_entry. cbn. destruct (target !! k'); lia. }
    split; [lia|]. split.
    + intros k v t Hin Ht. apply elem_of_cons in Hin as [[= -> ->]|Hin].
      * etrans; [|exact Hle]. unfold pass.max_jump_entry. cbn.
        rewrite Ht. lia.
      * by eapply Hub.
    + destruct Hatt as [Heq|(k & v & t & Hin & Ht & Heq)].
      * rewrite Heq. unfold pass.max_jump_entry. cbn.
        destruct (target !! k') as [t|] eqn:Ht; [|by left].
        destruct (Z.max_spec r0 (Int64.abs (Int64.sub t v'))) as [[_ ->]|[_ ->]].
        -- right. exists k', v', t. split; [apply list_elem_of_here|done].
        -- by left.
      * right. exists k, v, t. split; [by apply list_elem_of_further|done].
Qed.

Lemma max_jump_to_spec (self target : pass.HeightMap) :
  0 <= pass.max_jump_to self target
  /\ (forall k v t, pass.m_heights self !! k = Some v ->
        pass.m_heights target !! k = Some t ->
        Int64.abs (Int64.sub t v) <= pass.max_jump_to self target)
  /\ (pass.max_jump_to self target = 0
      \/ exists k v t, pass.m_heights self !! k = Some v
           /\ pass.m_heights target !! k = Some t
           /\ pass.max_jump_to self target = Int64.abs (Int64.sub t v)).
Proof.
  unfold pass.max_jump_to.
  destruct (fold_max_jump_entry_spec (map_to_list (pass.m_heights self))
              (pass.m_heights target) 0) as (H0 & Hub & Hatt).
  split; [exact H0|]. split.
  - intros k v t Hv Ht. eapply Hub; [|exact Ht]. by apply elem_of_map_to_list.
  - destruct Hatt as [?|(k & v & t & Hin & Ht & Heq)]; [by left|].
    right. exists k, v, t. by apply elem_of_map_to_list in Hin.
Qed.

(** As for [absorb], the iteration order of the [unordered_map] does not
    show in the result of [max_jump_to]. *)
Lemma max_jump_to_any_order (self target : pass.HeightMap)
    (entries : list (pass.NodePtr * Z)) :
  entries ≡ₚ map_to_list (pass.m_heights self) ->
  fold_left (pass.max_jump_entry (pass.m_heights target)) entries 0 =
    pass.max_jump_to self target.
Proof.
  intros Hperm.
  destruct (fold_max_jump_entry_spec entries (pass.m_heights target) 0)
    as (H0 & Hub & Hatt).
  destruct (max_jump_to_spec self target) as (H0' & Hub' & Hatt').
  apply Z.le_antisymm.
  - destruct Hatt as [->|(k & v & t & Hin & Ht & ->)]; [done|].
    eapply Hub'; [|exact Ht].
    rewrite Hperm in Hin. by apply elem_of_map_to_list in Hin.
  - destruct Hatt' as [->|(k & v & t & Hv & Ht & ->)]; [done|].
    eapply Hub; [|exact Ht].
    rewrite Hperm. by apply elem_of_map_to_list.
Qed.

(** The wrapped distance of two heights is symmetric, even where the
    subtraction or the absolute value wraps. *)
Lemma distance_sym a b :
  Int64.abs (Int64.sub a b) = Int64.abs (Int64.sub b a).
Proof.
  unfold Int64.abs, Int64.sub. f_equal.
  pose proof (wrap_in_range (a - b)) as Hr1.
  pose proof (wrap_in_range (b - a)) as Hr2.
  destruct (wrap_congr (a - b)) as [k1 Hk1].
  destruct (wrap_congr (b - a)) as [k2 Hk2].
  unfold Int64.in_range, Int64.half_modulus in *. lia.
Qed.

Lemma distance_exact a b :
  0 <= a < 2 ^ 63 -> 0 <= b < 2 ^ 63 ->
  Int64.abs (Int64.sub a b) = Z.abs (a - b).
Proof.
  intros Ha Hb. unfold Int64.abs, Int64.sub.
  rewrite (wrap_small (a - b)) by (unfold Int64.in_range, Int64.half_modulus; lia).
  apply wrap_small. unfold Int64.in_range, Int64.half_modulus. lia.
Qed.

(** C10.  The jump distance is symmetric in its two height maps. *)
Theorem max_jump_to_symmetric (a b : pass.HeightMap) :
  pass.max_jump_to a b = pass.max_jump_to b a.
Proof.
  assert (Hle : forall x y, pass.max_jump_to x y <= pass.max_jump_to y x).
  { intros x y.
    destruct (max_jump_to_spec x y) as (_ & _ & [->|(k & v & t & Hv & Ht & ->)]).
    - apply max_jump_to_spec.
    - rewrite distance_sym.
      destruct (max_jump_to_spec y x) as (_ & Hub & _). by eapply Hub. }
  apply Z.le_antisymm; apply Hle.
Qed.

(** On height maps whose heights all lie in [0, 2^63), the jump distance is
    the largest absolute difference over the sinks both maps record, and 0
    when they share no sink. *)
Lemma max_jump_to_bounded (self target : pass.HeightMap) :
  (forall k v, pass.m_heights self !! k = Some v -> 0 <= v < 2 ^ 63) ->
  (forall k t, pass.m_heights target !! k = Some t -> 0 <= t < 2 ^ 63) ->
  (forall k v t, pass.m_heights self !! k = Some v ->
     pass.m_heights target !! k = Some t ->
     Z.abs (v - t) <= pass.max_jump_to self target)
  /\ ((exists k v t, pass.m_heights self !! k = Some v
         /\ pass.m_heights target !! k = Some t
         /\ pass.max_jump_to self target = Z.abs (v - t))
      \/ ((forall k, pass.m_heights self !! k = None
                     \/ pass.m_heights target !! k = None)
          /\ pass.max_jump_to self target = 0)).
Proof.
  intros Hself Htarget.
  destruct (max_jump_to_spec self target) as (H0 & Hub & Hatt).
  assert (Hexact : forall k v t, pass.m_heights self !! k = Some v ->
            pass.m_heights target !! k = Some t ->
            Int64.abs (Int64.sub t v) = Z.abs (v - t)).
  { intros k v t Hv Ht. rewrite distance_exact by eauto. lia. }
  split.
  - intros k v t Hv Ht. rewrite <- (Hexact k v t Hv Ht). by eapply Hub.
  - destruct Hatt as [Hzero|(k & v & t & Hv & Ht & Heq)].
    + destruct (decide (dom (pass.m_heights self) ∩ dom (pass.m_heights target)
                        = (∅ : gset pass.NodePtr))) as [Hnone|Hsome].
      * right. split; [|done]. intros k.
        destruct (pass.m_heights self !! k) eqn:Hv; [|by left].
        destruct (pass.m_heights target !! k) eqn:Ht; [|by right].
        exfalso. apply (not_elem_of_empty (C := gset pass.NodePtr) k).
        rewrite <- Hnone. apply elem_of_intersection.
        split; apply elem_of_dom; eauto.
      * apply set_choose_L in Hsome as [k Hk].
        apply elem_of_intersection in Hk as [[v Hv]%elem_of_dom [t Ht]%elem_of_dom].
        left. exists k, v, t. split; [done|]. split; [done|].
        pose proof (Hub k v t Hv Ht) as Hle.
        rewrite (Hexact k v t Hv Ht) in Hle. lia.
    + left. exists k, v, t. rewrite Heq, (Hexact k v t Hv Ht). done.
Qed.

(** ** The height analysis *)

Lemma fold_seed_lookup (heap : gmap pass.NodePtr pass.Node)
    (ops : list pass.NodePtr) (height_maps : gmap pass.NodePtr pass.HeightMap)
    (p : pass.NodePtr) :
  fold_left (fun hms node => <[node := pass.seed heap node]> hms) ops height_maps
    !! p
  = if decide (p ∈ ops) then Some (pass.seed heap p) else height_maps !! p.
Proof.
  revert height_maps. induction ops as [|n ops IH]; intros height_maps.
  - cbn. destruct (decide (p ∈ [])) as [Hin|]; [|done].
    by apply elem_of_nil in Hin.
  - cbn [fold_left]. rewrite IH.
    destruct (decide (p ∈ ops)) as [Hin|Hnin].
    + rewrite decide_True by (by apply list_elem_of_further). done.
    + destruct (decide (n = p)) as [->|Hne].
      * rewrite lookup_insert_eq, decide_True by apply list_elem_of_here. done.
      * rewrite lookup_insert_ne by done.
        rewrite decide_False; [done|].
        intros [?|?]%elem_of_cons; congruence.
Qed.

Lemma seed_height_maps_lookup (heap : gmap pass.NodePtr pass.Node)
    (ops : list pass.NodePtr) (p : pass.NodePtr) :
  pass.seed_height_maps heap ops !! p
  = if decide (p ∈ ops) then Some (pass.seed heap p) else None.
Proof. unfold pass.seed_height_maps. by rewrite fold_seed_lookup, lookup_empty. Qed.

Lemma seed_lookup (heap : gmap pass.NodePtr pass.Node) (p k : pass.NodePtr) v :
  pass.m_heights (pass.seed heap p) !! k = Some v -> v = 0.
Proof.
  unfold pass.seed.
  destruct (String.eqb _ _); [rewrite HeightMap_of_singleton|]; cbn.
  - intros [_ <-]%lookup_singleton_Some. done.
  - by rewrite lookup_empty.
Qed.

Lemma at_insert_eq (height_maps : gmap pass.NodePtr pass.HeightMap) p hm :
  pass.at_ (<[p := hm]> height_maps) p = hm.
Proof. unfold pass.at_. by rewrite lookup_insert_eq. Qed.

Lemma at_insert_ne (height_maps : gmap pass.NodePtr pass.HeightMap) p q hm :
  p <> q -> pass.at_ (<[p := hm]> height_maps) q = pass.at_ height_maps q.
Proof. intros Hne. unfold pass.at_. by rewrite lookup_insert_ne. Qed.

Lemma heights_within_at bound height_maps p k v :
  pass.heights_within bound height_maps -> 0 <= bound ->
  pass.m_heights (pass.at_ height_maps p) !! k = Some v -> 0 <= v <= bound.
Proof.
  intros Hin Hb. unfold pass.at_.
  destruct (height_maps !! p) as [hm|] eqn:Hp; cbn.
  - intros Hv. by eapply Hin.
  - by rewrite lookup_empty.
Qed.

Lemma heights_within_seed heap ops :
  pass.heights_within 0 (pass.seed_height_maps heap ops).
Proof.
  intros p hm k v. rewrite seed_height_maps_lookup.
  destruct (decide (p ∈ ops)); [|done].
  intros [= <-] Hv. apply seed_lookup in Hv. lia.
Qed.

(** One [absorb] call raises the bound on the recorded heights by at most
    one, and its [v + 1] does not wrap while the bound stays below 2^63. *)
Lemma heights_within_absorb_target bound height_maps node target_node :
  pass.heights_within bound height_maps -> 0 <= bound -> bound + 1 < 2 ^ 63 ->
  pass.heights_within (bound + 1)
    (pass.absorb_target node height_maps target_node).
Proof.
  intros Hin Hb Hlt p hm k v. unfold pass.absorb_target.
  destruct (decide (node = p)) as [->|Hne].
  - rewrite lookup_insert_eq. intros [= <-]. rewrite absorb_lookup.
    destruct (pass.m_heights (pass.at_ height_maps target_node) !! k)
      as [t|] eqn:Ht.
    + apply (heights_within_at bound) in Ht; [|done..].
      intros [= <-]. unfold Int64.add.
      rewrite wrap_small
        by (unfold Int64.in_range, Int64.half_modulus; lia).
      destruct (pass.m_heights (pass.at_ height_maps p) !! k) as [s|] eqn:Hs;
        cbn.
      * apply (heights_within_at bound) in Hs; [|done..]. lia.
      * lia.
    + intros Hs. apply (heights_within_at bound) in Hs; [|done..]. lia.
  - rewrite lookup_insert_ne by done. intros Hp Hv.
    pose proof (Hin p hm k v Hp Hv). lia.
Qed.

Lemma heights_within_fold_absorb_target targets bound height_maps node :
  pass.heights_within bound height_maps -> 0 <= bound ->
  bound + Z.of_nat (length targets) < 2 ^ 63 ->
  pass.heights_within (bound + Z.of_nat (length targets))
    (fold_left (pass.absorb_target node) targets height_maps).
Proof.
  revert bound height_maps.
  induction targets as [|t targets IH]; intros bound height_maps Hin Hb Hlt.
  - cbn. by rewrite Z.add_0_r.
  - cbn [fold_left length] in *.
    replace (bound + Z.of_nat (S (length targets)))
      with ((bound + 1) + Z.of_nat (length targets)) by lia.
    apply IH; [|lia..].
    apply heights_within_absorb_target; [done|lia..].
Qed.

Lemma absorb_calls_nonneg heap nodes : 0 <= pass.absorb_calls heap nodes.
Proof.
  induction nodes as [|n nodes IH]; [done|].
  cbn [pass.absorb_calls fold_right]. fold (pass.absorb_calls heap nodes). lia.
Qed.

Lemma heights_within_fold_absorb_users heap nodes bound height_maps :
  pass.heights_within bound height_maps -> 0 <= bound ->
  bound + pass.absorb_calls heap nodes < 2 ^ 63 ->
  pass.heights_within (bound + pass.absorb_calls heap nodes)
    (fold_left (pass.absorb_users heap) nodes height_maps).
Proof.
  revert bound height_maps.
  induction nodes as [|n nodes IH]; intros bound height_maps Hin Hb Hlt.
  - cbn. by rewrite Z.add_0_r.
  - cbn [fold_left pass.absorb_calls fold_right] in *.
    pose proof (absorb_calls_nonneg heap nodes).
    fold (pass.absorb_calls heap nodes) in *.
    rewrite Z.add_assoc. apply IH; [|lia..].
    apply heights_within_fold_absorb_target; [done|lia..].
Qed.

(** Every height the analysis records lies between 0 and the number of
    [absorb] calls it made. *)
Lemma compute_height_maps_within topological_sort heap f :
  pass.absorb_calls heap (rev (topological_sort heap (pass.get_ops f))) < 2 ^ 63 ->
  pass.heights_within
    (pass.absorb_calls heap (rev (topological_sort heap (pass.get_ops f))))
    (pass.compute_height_maps topological_sort heap f).
Proof.
  intros Hlt. unfold pass.compute_height_maps.
  apply (heights_within_fold_absorb_users heap _ 0); [|done..].
  apply heights_within_seed.
Qed.

(** C3 (as amended).  The analysis seeds the height 0 at every node whose
    description is Result, at itself, and gives every other node of the
    function an empty height map, whether or not it has users; it then
    processes the nodes in reverse topological order, and for each node and
    each input fed by one of its outputs absorbs the user's height map:
    every sink recorded by the user gets the maximum of the node's current
    height for it (0 when none is recorded) and the user's height plus 1,
    the other sinks and the other nodes' maps staying as they are. *)
Theorem height_analysis_seeds_and_absorbs
    (topological_sort : gmap pass.NodePtr pass.Node -> list pass.NodePtr
                        -> list pass.NodePtr)
    (heap : gmap pass.NodePtr pass.Node) (f : pass.Function) :
  (forall node, node ∈ pass.get_ops f ->
     pass.m_heights (pass.at_ (pass.seed_height_maps heap (pass.get_ops f)) node)
     = if String.eqb (pass.description (pass.deref heap node)) "Result"
       then {[ node := 0 ]} else ∅)
  /\ pass.compute_height_maps topological_sort heap f
     = fold_left
         (fun height_maps node =>
            fold_left (pass.absorb_target node)
                      (pass.target_nodes (pass.deref heap node)) height_maps)
         (rev (topological_sort heap (pass.get_ops f)))
         (pass.seed_height_maps heap (pass.get_ops f))
  /\ (forall height_maps node user sink h,
        pass.m_heights (pass.at_ height_maps user) !! sink = Some h ->
        - 2 ^ 63 <= h < 2 ^ 63 - 1 ->
        pass.m_heights
          (pass.at_ (pass.absorb_target node height_maps user) node) !! sink
        = Some (Z.max
                  (default 0 (pass.m_heights (pass.at_ height_maps node) !! sink))
                  (h + 1)))
  /\ (forall height_maps node user sink,
        pass.m_heights (pass.at_ height_maps user) !! sink = None ->
        pass.m_heights
          (pass.at_ (pass.absorb_target node height_maps user) node) !! sink
        = pass.m_heights (pass.at_ height_maps node) !! sink)
  /\ (forall height_maps node user other, other <> node ->
        pass.at_ (pass.absorb_target node height_maps user) other
        = pass.at_ height_maps other).
Proof.
  split; [|split; [reflexivity|split; [|split]]].
  - intros node Hin. unfold pass.at_.
    rewrite seed_height_maps_lookup, decide_True by exact Hin.
    cbn [default from_option id]. unfold pass.seed.
    destruct (String.eqb _ _); [apply HeightMap_of_singleton|reflexivity].
  - intros height_maps node user sink h Hh Hrange.
    unfold pass.absorb_target. rewrite at_insert_eq, absorb_lookup, Hh.
    unfold Int64.add. rewrite wrap_small; [reflexivity|].
    unfold Int64.in_range, Int64.half_modulus. lia.
  - intros height_maps node user sink Hnone.
    unfold pass.absorb_target. rewrite at_insert_eq, absorb_lookup, Hnone.
    reflexivity.
  - intros height_maps node user other Hne.
    unfold pass.absorb_target. by apply at_insert_ne.
Qed.

(** C3 as stated fails: the Parameter at address 1 has no users and belongs
    to the function, yet neither the seeding nor the finished analysis
    records a height for it. *)
Lemma height_analysis_seeds_counterexample :
  pass.target_nodes (pass.deref pass.unused_parameter_heap 1%nat) = []
  /\ 1%nat ∈ pass.get_ops pass.unused_parameter
  /\ pass.m_heights
       (pass.at_ (pass.seed_height_maps pass.unused_parameter_heap
                    (pass.get_ops pass.unused_parameter)) 1%nat) !! 1%nat
     = None
  /\ pass.m_heights
       (pass.at_ (pass.compute_height_maps pass.sort_by_reversal
                    pass.unused_parameter_heap pass.unused_parameter) 1%nat)
     = ∅.
Proof.
  split; [reflexivity|]. split; [|split].
  - cbn. do 2 apply list_elem_of_further. apply list_elem_of_here.
  - vm_compute. reflexivity.
  - vm_compute. reflexivity.
Qed.

(** C4.  For the height maps the analysis computes for a node N and a node
    M (the number of [absorb] calls staying below 2^63), the jump distance
    from N to M bounds the absolute difference of the two heights at every
    sink that both maps record, is attained at one of them when there is
    one, and is 0 when the maps share no sink. *)
Theorem jump_distance_is_max_height_difference
    (topological_sort : gmap pass.NodePtr pass.Node -> list pass.NodePtr
                        -> list pass.NodePtr)
    (heap : gmap pass.NodePtr pass.Node) (f : pass.Function)
    (N M : pass.NodePtr) :
  pass.absorb_calls heap (rev (topological_sort heap (pass.get_ops f))) < 2 ^ 63 ->
  (forall sink hN hM,
     pass.m_heights
       (pass.at_ (pass.compute_height_maps topological_sort heap f) N) !! sink
       = Some hN ->
     pass.m_heights
       (pass.at_ (pass.compute_height_maps topological_sort heap f) M) !! sink
       = Some hM ->
     Z.abs (hN - hM)
     <= pass.jump_distance (pass.compute_height_maps topological_sort heap f) N M)
  /\ ((exists sink hN hM,
         pass.m_heights
           (pass.at_ (pass.compute_height_maps topological_sort heap f) N) !! sink
           = Some hN
         /\ pass.m_heights
              (pass.at_ (pass.compute_height_maps topological_sort heap f) M) !! sink
            = Some hM
         /\ pass.jump_distance
              (pass.compute_height_maps topological_sort heap f) N M
            = Z.abs (hN - hM))
      \/ ((forall sink,
             pass.m_heights
               (pass.at_ (pass.compute_height_maps topological_sort heap f) N) !! sink
             = None
             \/ pass.m_heights
                  (pass.at_ (pass.compute_height_maps topological_sort heap f) M) !! sink
                = None)
          /\ pass.jump_distance
               (pass.compute_height_maps topological_sort heap f) N M = 0)).
Proof.
  intros Hcalls.
  pose proof (compute_height_maps_within topological_sort heap f Hcalls) as Hin.
  pose proof (absorb_calls_nonneg heap
                (rev (topological_sort heap (pass.get_ops f)))) as Hnonneg.
  set (height_maps := pass.compute_height_maps topological_sort heap f) in *.
  assert (Hbounded : forall p k v,
            pass.m_heights (pass.at_ height_maps p) !! k = Some v ->
            0 <= v < 2 ^ 63).
  { intros p k v Hv. eapply heights_within_at in Hv; [|exact Hin|exact Hnonneg].
    lia. }
  destruct (max_jump_to_bounded (pass.at_ height_maps N) (pass.at_ height_maps M)
              (Hbounded N) (Hbounded M)) as [Hub Hatt].
  assert (Hjump : pass.jump_distance height_maps N M
                  = pass.max_jump_to (pass.at_ height_maps N)
                                     (pass.at_ height_maps M)).
  { unfold pass.jump_distance. apply to_u64_small.
    destruct (max_jump_to_spec (pass.at_ height_maps N) (pass.at_ height_maps M))
      as (H0 & _ & [->|(k & v & t & Hv & Ht & ->)]); [lia|].
    rewrite distance_exact by eauto.
    pose proof (Hbounded N k v Hv). pose proof (Hbounded M k t Ht). lia. }
  rewrite Hjump. split; [exact Hub|exact Hatt].
Qed.

(** On the path A -> B -> C -> D the heights of A and C for the sink D are
    3 and 1, so the jump distance from A to C is at least 2. *)
Lemma jump_distance_is_max_height_difference_witness :
  pass.m_heights
    (pass.at_ (pass.compute_height_maps pass.sort_by_reversal
                 pass.chain_heap pass.chain) 1%nat) !! 4%nat = Some 3
  /\ pass.m_heights
       (pass.at_ (pass.compute_height_maps pass.sort_by_reversal
                    pass.chain_heap pass.chain) 3%nat) !! 4%nat = Some 1
  /\ 2 <= pass.jump_distance
            (pass.compute_height_maps pass.sort_by_reversal
               pass.chain_heap pass.chain) 1%nat 3%nat.
Proof.
  assert (Hcalls : pass.absorb_calls pass.chain_heap
                     (rev (pass.sort_by_reversal pass.chain_heap
                             (pass.get_ops pass.chain))) < 2 ^ 63)
    by (vm_compute; reflexivity).
  split; [vm_compute; reflexivity|]. split; [vm_compute; reflexivity|].
  exact (proj1 (jump_distance_is_max_height_difference
                  pass.sort_by_reversal pass.chain_heap pass.chain
                  1%nat 3%nat Hcalls)
               4%nat 3 1 eq_refl eq_refl).
Defined.

(** The path A -> B -> C -> D has a single topological order. *)
Lemma chain_order_unique (order : list pass.NodePtr) :
  pass.is_topological_order pass.chain_heap order (pass.get_ops pass.chain) ->
  order = [1; 2; 3; 4]%nat.
Proof.
  intros [Hperm Hpos]. cbn [pass.get_ops pass.chain] in *.
  assert (Hlen : length order = 4%nat) by (by rewrite Hperm).
  assert (Hnd : NoDup order).
  { rewrite Hperm. apply (bool_decide_unpack _). vm_compute. exact I. }
  assert (Hall : Forall (fun n => n ∈ [4; 3; 2; 1]%nat) order).
  { apply Forall_forall. intros n Hn. by rewrite <- Hperm. }
  assert (H21 := Hpos 2%nat 1%nat).
  assert (H32 := Hpos 3%nat 2%nat).
  assert (H43 := Hpos 4%nat 3%nat).
  clear Hpos Hperm.
  specialize (H21 ltac:(set_solver) ltac:(vm_compute; set_solver)).
  specialize (H32 ltac:(set_solver) ltac:(vm_compute; set_solver)).
  specialize (H43 ltac:(set_solver) ltac:(vm_compute; set_solver)).
  destruct order as [|a [|b [|c [|d [|? ?]]]]]; try discriminate Hlen.
  clear Hlen.
  apply Forall_cons in Hall as [Ha Hall].
  apply Forall_cons in Hall as [Hb Hall].
  apply Forall_cons in Hall as [Hc Hall].
  apply Forall_cons in Hall as [Hd _].
  apply (bool_decide_pack _) in Hnd.
  repeat match goal with
         | H : _ ∈ _ :: _ |- _ => apply elem_of_cons in H as [->|H]
         | H : _ ∈ [] |- _ => by apply elem_of_nil in H
         end;
    first [ reflexivity
          | exfalso; vm_compute in Hnd; exact Hnd
          | exfalso; vm_compute in H21, H32, H43; lia ].
Qed.

(** C5.  On the path A -> B -> C -> D, whose only sink is the Result D, and
    for any sort that returns a topological order of its nodes, the analysis
    records for the sink D the heights 3 at A, 2 at B, 1 at C and 0 at D, and
    nothing else; the jump distance of the edge from A to B is 1. *)
Theorem chain_heights_and_jump_distance
    (topological_sort : gmap pass.NodePtr pass.Node -> list pass.NodePtr
                        -> list pass.NodePtr) :
  pass.is_topological_order pass.chain_heap
    (topological_sort pass.chain_heap (pass.get_ops pass.chain))
    (pass.get_ops pass.chain) ->
  pass.m_heights
    (pass.at_ (pass.compute_height_maps topological_sort pass.chain_heap pass.chain)
              1%nat) = {[ 4%nat := 3 ]}
  /\ pass.m_heights
       (pass.at_ (pass.compute_height_maps topological_sort pass.chain_heap pass.chain)
                 2%nat) = {[ 4%nat := 2 ]}
  /\ pass.m_heights
       (pass.at_ (pass.compute_height_maps topological_sort pass.chain_heap pass.chain)
                 3%nat) = {[ 4%nat := 1 ]}
  /\ pass.m_heights
       (pass.at_ (pass.compute_height_maps topological_sort pass.chain_heap pass.chain)
                 4%nat) = {[ 4%nat := 0 ]}
  /\ pass.jump_distance
       (pass.compute_height_maps topological_sort pass.chain_heap pass.chain)
       1%nat 2%nat = 1.
Proof.
  intros Horder. apply chain_order_unique in Horder.
  unfold pass.compute_height_maps. rewrite Horder.
  repeat split; vm_compute; reflexivity.
Qed.

(** [get_ops] of the path lists D, C, B, A; its reversal is a topological
    order. *)
Lemma sort_by_reversal_chain_topological :
  pass.is_topological_order pass.chain_heap
    (pass.sort_by_reversal pass.chain_heap (pass.get_ops pass.chain))
    (pass.get_ops pass.chain).
Proof.
  split.
  - unfold pass.sort_by_reversal. symmetry. apply Permutation_rev.
  - intros n arg Hn Harg. cbn in Hn.
    repeat match type of Hn with
           | _ ∈ _ :: _ => apply elem_of_cons in Hn as [->|Hn]
           | _ ∈ [] => by apply elem_of_nil in Hn
           end;
      apply list_elem_of_In in Harg; vm_compute in Harg;
      repeat match type of Harg with
             | _ \/ _ => destruct Harg as [<-|Harg]
             | False => destruct Harg
             end;
      vm_compute; lia.
Qed.

(** The path analysed with the reversing sort. *)
Lemma chain_heights_and_jump_distance_witness :
  pass.m_heights
    (pass.at_ (pass.compute_height_maps pass.sort_by_reversal
                 pass.chain_heap pass.chain) 1%nat) = {[ 4%nat := 3 ]}
  /\ pass.jump_distance
       (pass.compute_height_maps pass.sort_by_reversal pass.chain_heap pass.chain)
       1%nat 2%nat = 1.
Proof.
  pose proof (chain_heights_and_jump_distance pass.sort_by_reversal
                sort_by_reversal_chain_topological) as H.
  split; [exact (proj1 H)|exact (proj2 (proj2 (proj2 (proj2 H))))].
Defined.

(** ** run_on_module and the node graph *)

Lemma preserves_graph_ret {A : Type} (a : A) : pass.preserves_graph (mret a).
Proof. intros w. reflexivity. Qed.

Lemma preserves_graph_bind {A B : Type} (m : pass.M A) (k : A -> pass.M B) :
  pass.preserves_graph m -> (forall a, pass.preserves_graph (k a)) ->
  pass.preserves_graph (m ≫= k).
Proof.
  intros Hm Hk w. unfold mbind, pass.M_bind. cbn.
  destruct (m w).1 as [a|].
  - rewrite Hk. apply Hm.
  - apply Hm.
Qed.

Lemma preserves_graph_gets {A : Type} (f : pass.World -> A) :
  pass.preserves_graph (pass.gets f).
Proof. intros w. reflexivity. Qed.

Lemma preserves_graph_returning {A : Type} (a : option A) :
  pass.preserves_graph (pass.returning a).
Proof. intros w. reflexivity. Qed.

Lemma preserves_graph_getenv name : pass.preserves_graph (pass.getenv name).
Proof. apply preserves_graph_gets. Qed.

Lemma preserves_graph_load p : pass.preserves_graph (pass.load p).
Proof. apply preserves_graph_gets. Qed.

Lemma preserves_graph_ss_put s : pass.preserves_graph (pass.ss_put s).
Proof. intros w. reflexivity. Qed.

Lemma preserves_graph_mark_with_attributes p :
  pass.preserves_graph (pass.mark_with_attributes p).
Proof. intros w. reflexivity. Qed.

Lemma preserves_graph_write_file name contents :
  pass.preserves_graph (pass.write_file name contents).
Proof. intros w. reflexivity. Qed.

Lemma preserves_graph_popen cmd : pass.preserves_graph (pass.popen cmd).
Proof. intros w. reflexivity. Qed.

Lemma preserves_graph_nvtos_static : pass.preserves_graph pass.nvtos_static.
Proof. intros w. unfold pass.nvtos_static. by destruct (pass.nvtos w). Qed.

Lemma preserves_graph_nvtot_static : pass.preserves_graph pass.nvtot_static.
Proof. intros w. unfold pass.nvtot_static. by destruct (pass.nvtot w). Qed.

Lemma preserves_graph_for_each {A S : Type} (l : list A) (body : S -> A -> pass.M S)
    (s : S) :
  (forall s' x, pass.preserves_graph (body s' x)) ->
  pass.preserves_graph (pass.for_each l body s).
Proof.
  intros Hbody. revert s. induction l as [|x l IH]; intros s; cbn [pass.for_each].
  - apply preserves_graph_ret.
  - apply preserves_graph_bind; [apply Hbody|exact IH].
Qed.

Create HintDb graph_frame discriminated.

#[local] Hint Resolve preserves_graph_ret preserves_graph_gets
  preserves_graph_returning preserves_graph_getenv preserves_graph_load
  preserves_graph_ss_put preserves_graph_mark_with_attributes
  preserves_graph_write_file preserves_graph_popen
  preserves_graph_nvtos_static preserves_graph_nvtot_static : graph_frame.

(** Walks a computation of [M]: binds are split, branches are taken apart,
    and the leaves are closed by the lemmas on the primitive operations. *)
Ltac frame_step :=
  lazymatch goal with
  | |- pass.preserves_graph (_ ≫= _) => apply preserves_graph_bind; [|intros ?]
  | |- pass.preserves_graph (match ?x with _ => _ end) => destruct x
  | |- pass.preserves_graph (let _ := _ in _) => cbv zeta
  | |- pass.preserves_graph (pass.for_each _ _ _) =>
      apply preserves_graph_for_each; intros ? ?
  | |- _ => solve [auto with graph_frame]
  end.

Ltac frame := repeat frame_step.

Section Frame.

Variable topological_sort : gmap pass.NodePtr pass.Node -> list pass.NodePtr
                            -> list pass.NodePtr.
Variable traverse_nodes : gmap pass.NodePtr pass.Node -> pass.Function
                          -> list pass.NodePtr.
Variable get_shape : pass.Node -> option Shape.
Variable vector_to_string : Shape -> string.
Variable c_type_string : element.Type_t -> string.
Variable join : list string -> string -> string.
Variable _WIN32 : bool.
Variable this : pass.VisualizeTree.

Lemma preserves_graph_label_edge src dst arg_index jump_distance :
  pass.preserves_graph (pass.label_edge src dst arg_index jump_distance).
Proof. unfold pass.label_edge. frame. Qed.

Lemma preserves_graph_get_attributes node :
  pass.preserves_graph
    (pass.get_attributes get_shape vector_to_string c_type_string join this node).
Proof. unfold pass.get_attributes. frame. Qed.

Lemma preserves_graph_add_attributes node :
  pass.preserves_graph
    (pass.add_attributes get_shape vector_to_string c_type_string join this node).
Proof.
  unfold pass.add_attributes. frame. apply preserves_graph_get_attributes.
Qed.

Lemma preserves_graph_draw_edge height_maps node locals arg :
  pass.preserves_graph
    (pass.draw_edge get_shape vector_to_string c_type_string join this
       height_maps node locals arg).
Proof.
  unfold pass.draw_edge.
  repeat first
    [ apply preserves_graph_label_edge
    | apply preserves_graph_add_attributes
    | frame_step ].
Qed.

Lemma preserves_graph_draw_node height_maps fake_node_ctr node :
  pass.preserves_graph
    (pass.draw_node get_shape vector_to_string c_type_string join this
       height_maps fake_node_ctr node).
Proof.
  unfold pass.draw_node.
  repeat first [ apply preserves_graph_draw_edge | frame_step ].
Qed.

Lemma preserves_graph_visualize_function u f :
  pass.preserves_graph
    (pass.visualize_function topological_sort traverse_nodes get_shape
       vector_to_string c_type_string join this u f).
Proof.
  unfold pass.visualize_function.
  repeat first [ apply preserves_graph_draw_node | frame_step ].
Qed.

Lemma preserves_graph_render : pass.preserves_graph (pass.render _WIN32 this).
Proof. unfold pass.render, pass.get_file_ext. frame. Qed.

Lemma preserves_graph_run_on_module functions :
  pass.preserves_graph
    (pass.run_on_module topological_sort traverse_nodes get_shape
       vector_to_string c_type_string join _WIN32 this functions).
Proof.
  unfold pass.run_on_module.
  repeat first
    [ apply preserves_graph_visualize_function
    | apply preserves_graph_render
    | frame_step ].
Qed.

End Frame.

(** C8.  Running the pass leaves the node graph as it was, whether
    [run_on_module] returns or an exception escapes it: the store of nodes
    afterwards is the store before, so every node keeps its kind, its
    arguments, its outputs with their users, element types and shapes. *)
Theorem run_on_module_leaves_graph_unchanged
    (topological_sort : gmap pass.NodePtr pass.Node -> list pass.NodePtr
                        -> list pass.NodePtr)
    (traverse_nodes : gmap pass.NodePtr pass.Node -> pass.Function
                      -> list pass.NodePtr)
    (get_shape : pass.Node -> option Shape) (vector_to_string : Shape -> string)
    (c_type_string : element.Type_t -> string)
    (join : list string -> string -> string) (_WIN32 : bool)
    (this : pass.VisualizeTree) (functions : list pass.Function)
    (w : pass.World) :
  pass.heap
    (pass.run_on_module topological_sort traverse_nodes get_shape
       vector_to_string c_type_string join _WIN32 this functions w).2
  = pass.heap w
  /\ forall p,
       pass.description
         (pass.deref
            (pass.heap
               (pass.run_on_module topological_sort traverse_nodes get_shape
                  vector_to_string c_type_string join _WIN32 this functions w).2) p)
       = pass.description (pass.deref (pass.heap w) p)
       /\ pass.get_arguments
            (pass.deref
               (pass.heap
                  (pass.run_on_module topological_sort traverse_nodes get_shape
                     vector_to_string c_type_string join _WIN32 this functions w).2) p)
          = pass.get_arguments (pass.deref (pass.heap w) p)
       /\ pass.outputs
            (pass.deref
               (pass.heap
                  (pass.run_on_module topological_sort traverse_nodes get_shape
                     vector_to_string c_type_string join _WIN32 this functions w).2) p)
          = pass.outputs (pass.deref (pass.heap w) p).
Proof.
  pose proof (preserves_graph_run_on_module topological_sort traverse_nodes
                get_shape vector_to_string c_type_string join _WIN32 this
                functions w) as H.
  split; [exact H|]. intros p. rewrite H. done.
Qed.

(** ** When run_on_module returns *)

Lemma bind_None {A B : Type} (m : pass.M A) (k : A -> pass.M B) w :
  (m w).1 = None -> (m ≫= k) w = (None, (m w).2).
Proof. intros H. unfold mbind, pass.M_bind. cbn. by rewrite H. Qed.

Lemma bind_Some {A B : Type} (m : pass.M A) (k : A -> pass.M B) w a :
  (m w).1 = Some a -> (m ≫= k) w = k a (m w).2.
Proof. intros H. unfold mbind, pass.M_bind. cbn. by rewrite H. Qed.

Lemma bind_Some_inv {A B : Type} (m : pass.M A) (k : A -> pass.M B) w b :
  ((m ≫= k) w).1 = Some b ->
  exists a, (m w).1 = Some a /\ (k a (m w).2).1 = Some b.
Proof.
  unfold mbind, pass.M_bind. cbn.
  destruct (m w).1 as [a|]; [|done]. intros H. by exists a.
Qed.

Lemma bind_load {B : Type} (p : pass.NodePtr) (k : pass.Node -> pass.M B) w :
  (pass.load p ≫= k) w = k (pass.deref (pass.heap w) p) w.
Proof. reflexivity. Qed.

Lemma bind_gets {A B : Type} (f : pass.World -> A) (k : A -> pass.M B) w :
  (pass.gets f ≫= k) w = k (f w) w.
Proof. reflexivity. Qed.

Lemma shape_labels_nvtos_static w :
  (pass.nvtos_static w).1 = Some (pass.shape_labels w)
  /\ pass.heap (pass.nvtos_static w).2 = pass.heap w
  /\ pass.shape_labels (pass.nvtos_static w).2 = pass.shape_labels w.
Proof.
  unfold pass.nvtos_static, pass.shape_labels.
  destruct (pass.nvtos w) eqn:Hcache; cbn; rewrite ?Hcache; done.
Qed.

Section Returning.

Variable get_shape : pass.Node -> option Shape.

Local Abbreviation describable := (pass.describable get_shape).
Local Abbreviation returns := (pass.returns_when_describable get_shape).

(** Describability looks at the node graph and at whether shapes are
    printed, and at nothing else. *)
Lemma describable_ext w w' :
  pass.heap w' = pass.heap w -> pass.shape_labels w' = pass.shape_labels w ->
  describable w -> describable w'.
Proof. unfold pass.describable. intros -> ->. done. Qed.

Lemma returns_ret {A : Type} (a : A) : returns (mret a).
Proof. intros w Hw. split; [by eexists|exact Hw]. Qed.

Lemma returns_bind {A B : Type} (m : pass.M A) (k : A -> pass.M B) :
  returns m -> (forall a, returns (k a)) -> returns (m ≫= k).
Proof.
  intros Hm Hk w Hw. destruct (Hm w Hw) as [[a Ha] Hw'].
  rewrite (bind_Some m k w a Ha). by apply Hk.
Qed.

Lemma returns_gets {A : Type} (f : pass.World -> A) : returns (pass.gets f).
Proof. intros w Hw. split; [by eexists|exact Hw]. Qed.

Lemma returns_getenv name : returns (pass.getenv name).
Proof. apply returns_gets. Qed.

Lemma returns_load p : returns (pass.load p).
Proof. apply returns_gets. Qed.

Lemma returns_ss_put s : returns (pass.ss_put s).
Proof. intros w Hw. split; [by eexists|]. by eapply describable_ext. Qed.

Lemma returns_mark_with_attributes p : returns (pass.mark_with_attributes p).
Proof. intros w Hw. split; [by eexists|]. by eapply describable_ext. Qed.

Lemma returns_write_file name contents : returns (pass.write_file name contents).
Proof. intros w Hw. split; [by eexists|]. by eapply describable_ext. Qed.

Lemma returns_popen cmd : returns (pass.popen cmd).
Proof. intros w Hw. split; [by eexists|]. by eapply describable_ext. Qed.

Lemma returns_nvtot_static : returns pass.nvtot_static.
Proof.
  intros w Hw. unfold pass.nvtot_static.
  destruct (pass.nvtot w); (split; [by eexists|]); by eapply describable_ext.
Qed.

Lemma returns_for_each {A S : Type} (l : list A) (body : S -> A -> pass.M S)
    (s : S) :
  (forall s' x, returns (body s' x)) -> returns (pass.for_each l body s).
Proof.
  intros Hbody. revert s. induction l as [|x l IH]; intros s; cbn [pass.for_each].
  - apply returns_ret.
  - apply returns_bind; [apply Hbody|exact IH].
Qed.

Create HintDb returning discriminated.

#[local] Hint Resolve returns_ret returns_gets returns_getenv returns_load
  returns_ss_put returns_mark_with_attributes returns_write_file returns_popen
  returns_nvtot_static : returning.

Ltac returns_step :=
  lazymatch goal with
  | |- pass.returns_when_describable _ (_ ≫= _) =>
      apply returns_bind; [|intros ?]
  | |- pass.returns_when_describable _ (match ?x with _ => _ end) => destruct x
  | |- pass.returns_when_describable _ (let _ := _ in _) => cbv zeta
  | |- pass.returns_when_describable _ (pass.for_each _ _ _) =>
      apply returns_for_each; intros ? ?
  | |- _ => solve [auto with returning]
  end.

Variable topological_sort : gmap pass.NodePtr pass.Node -> list pass.NodePtr
                            -> list pass.NodePtr.
Variable traverse_nodes : gmap pass.NodePtr pass.Node -> pass.Function
                          -> list pass.NodePtr.
Variable vector_to_string : Shape -> string.
Variable c_type_string : element.Type_t -> string.
Variable join : list string -> string -> string.
Variable _WIN32 : bool.
Variable this : pass.VisualizeTree.

Lemma returns_label_edge src dst arg_index jump_distance :
  returns (pass.label_edge src dst arg_index jump_distance).
Proof. unfold pass.label_edge. repeat returns_step. Qed.

(** The part of [get_attributes] that can throw: the shape of the label. *)
Lemma returns_get_attributes node :
  returns
    (pass.get_attributes get_shape vector_to_string c_type_string join this node).
Proof.
  intros w Hw. unfold pass.get_attributes.
  rewrite bind_load. cbv zeta.
  destruct (shape_labels_nvtos_static w) as (Hv & Hheap & Hlabels).
  rewrite (bind_Some pass.nvtos_static _ w _ Hv).
  set (w1 := (pass.nvtos_static w).2) in *.
  assert (Hw1 : describable w1) by (by eapply describable_ext).
  match goal with
  | |- is_Some ((?m ≫= ?k) w1).1 /\ _ =>
      assert (Hm : pass.returns_when_describable get_shape m);
      [|revert w1 Hheap Hlabels Hw1; intros w1 _ _ Hw1;
        apply (returns_bind m k); [exact Hm| |exact Hw1]]
  end.
  - destruct (pass.shape_labels w) as [requested|] eqn:Hreq;
      [|apply returns_ret].
    destruct (bool_decide (length (pass.outputs (pass.deref (pass.heap w) node))
                           ≠ 1%nat)) eqn:Hlen; [apply returns_ret|].
    apply bool_decide_eq_false in Hlen. apply dec_stable in Hlen.
    destruct Hw as [Hoff|Hshapes]; [congruence|].
    destruct (Hshapes node Hlen) as [shape Hshape]. rewrite Hshape.
    apply returns_bind; [|intros ?; apply returns_ret].
    intros w' Hw'. split; [by eexists|exact Hw'].
  - intros label. repeat returns_step.
Qed.

Lemma returns_add_attributes node :
  returns
    (pass.add_attributes get_shape vector_to_string c_type_string join this node).
Proof.
  unfold pass.add_attributes.
  repeat first [ apply returns_get_attributes | returns_step ].
Qed.

Lemma returns_draw_edge height_maps node locals arg :
  returns
    (pass.draw_edge get_shape vector_to_string c_type_string join this
       height_maps node locals arg).
Proof.
  unfold pass.draw_edge.
  repeat first
    [ apply returns_label_edge | apply returns_add_attributes | returns_step ].
Qed.

Lemma returns_draw_node height_maps fake_node_ctr node :
  returns
    (pass.draw_node get_shape vector_to_string c_type_string join this
       height_maps fake_node_ctr node).
Proof.
  unfold pass.draw_node.
  repeat first [ apply returns_draw_edge | returns_step ].
Qed.

Lemma returns_visualize_function u f :
  returns
    (pass.visualize_function topological_sort traverse_nodes get_shape
       vector_to_string c_type_string join this u f).
Proof.
  unfold pass.visualize_function.
  repeat first [ apply returns_draw_node | returns_step ].
Qed.

Lemma returns_render : returns (pass.render _WIN32 this).
Proof. unfold pass.render, pass.get_file_ext. repeat returns_step. Qed.

Lemma returns_run_on_module functions :
  returns
    (pass.run_on_module topological_sort traverse_nodes get_shape
       vector_to_string c_type_string join _WIN32 this functions).
Proof.
  unfold pass.run_on_module.
  repeat first
    [ apply returns_visualize_function | apply returns_render | returns_step ].
Qed.

End Returning.

(** C9 (as amended).  [run_on_module] never returns true: whenever it
    returns, it returns false.  It returns on every module in which nothing
    to describe makes [get_shape] throw, that is when output shapes are not
    printed in the labels or every node with one output has a static shape;
    otherwise an exception may escape and nothing is returned. *)
Theorem run_on_module_returns_false
    (topological_sort : gmap pass.NodePtr pass.Node -> list pass.NodePtr
                        -> list pass.NodePtr)
    (traverse_nodes : gmap pass.NodePtr pass.Node -> pass.Function
                      -> list pass.NodePtr)
    (get_shape : pass.Node -> option Shape) (vector_to_string : Shape -> string)
    (c_type_string : element.Type_t -> string)
    (join : list string -> string -> string) (_WIN32 : bool)
    (this : pass.VisualizeTree) (functions : list pass.Function)
    (w : pass.World) :
  (forall b,
     (pass.run_on_module topological_sort traverse_nodes get_shape
        vector_to_string c_type_string join _WIN32 this functions w).1 = Some b ->
     b = false)
  /\ (pass.describable get_shape w ->
      (pass.run_on_module topological_sort traverse_nodes get_shape
         vector_to_string c_type_string join _WIN32 this functions w).1
      = Some false).
Proof.
  assert (Hfalse : forall b,
            (pass.run_on_module topological_sort traverse_nodes get_shape
               vector_to_string c_type_string join _WIN32 this functions w).1
            = Some b -> b = false).
  { intros b. unfold pass.run_on_module. intros H.
    apply bind_Some_inv in H as (_ & _ & H).
    apply bind_Some_inv in H as (_ & _ & H).
    by injection H as <-. }
  split; [exact Hfalse|]. intros Hw.
  destruct (returns_run_on_module get_shape topological_sort traverse_nodes
              vector_to_string c_type_string join _WIN32 this functions w Hw)
    as [[b Hb] _].
  rewrite Hb. f_equal. by apply Hfalse.
Qed.

(** C9 as stated fails: with NGRAPH_VISUALIZE_TREE_OUTPUT_SHAPES set, a
    function in which an op with a fully dynamic output feeds a Result makes
    [get_shape] throw while the edge is drawn; [run_on_module] returns
    nothing, and [render] is never reached, so no file is written. *)
Lemma run_on_module_returns_false_counterexample :
  pass.get_static_shape (pass.deref pass.dynamic_output_heap 2%nat) = None
  /\ (pass.run_on_module pass.sort_by_reversal pass.traverse_ops
        pass.get_static_shape (fun _ => EmptyString) (fun _ => EmptyString)
        (fun _ _ => EmptyString) false pass.plain_pass
        [pass.dynamic_output] pass.dynamic_output_world).1 = None
  /\ pass.files
       (pass.run_on_module pass.sort_by_reversal pass.traverse_ops
          pass.get_static_shape (fun _ => EmptyString) (fun _ => EmptyString)
          (fun _ _ => EmptyString) false pass.plain_pass
          [pass.dynamic_output] pass.dynamic_output_world).2 = [].
Proof. split; [|split]; vm_compute; reflexivity. Qed.

(** * Further properties *)

(** Closes a decidable goal on concrete data by evaluating its decision
    procedure. *)
Ltac by_computation := apply (bool_decide_unpack _); vm_compute; exact I.

(** ** HeightMap, entry by entry *)

Lemma HeightMap_eq (a b : pass.HeightMap) :
  pass.m_heights a = pass.m_heights b -> a = b.
Proof. destruct a, b. cbn. by intros ->. Qed.

Lemma fold_zero_lookup (l : list pass.NodePtr) (heights : gmap pass.NodePtr Z)
    (k : pass.NodePtr) :
  fold_left (fun hs n => <[n := 0]> hs) l heights !! k
  = if decide (k ∈ l) then Some 0 else heights !! k.
Proof.
  revert heights. induction l as [|n l IH]; intros heights.
  - cbn. destruct (decide (k ∈ [])) as [Hin|]; [|done].
    by apply elem_of_nil in Hin.
  - cbn [fold_left]. rewrite IH.
    destruct (decide (k ∈ l)) as [Hin|Hnin].
    + rewrite decide_True by (by apply list_elem_of_further). done.
    + destruct (decide (n = k)) as [->|Hne].
      * rewrite lookup_insert_eq, decide_True by apply list_elem_of_here. done.
      * rewrite lookup_insert_ne by done.
        rewrite decide_False; [done|].
        intros [?|?]%elem_of_cons; congruence.
Qed.

(** X1.  The map built by [HeightMap(initials)] records the height 0 at
    exactly the nodes of [initials]. *)
Theorem HeightMap_of_lookup (initials : gset pass.NodePtr) (k : pass.NodePtr) :
  pass.m_heights (pass.HeightMap_of initials) !! k
  = if decide (k ∈ initials) then Some 0 else None.
Proof.
  unfold pass.HeightMap_of. cbn [pass.m_heights].
  rewrite fold_zero_lookup, lookup_empty.
  destruct (decide (k ∈ elements initials)) as [Hin|Hnin].
  - rewrite decide_True; [done|]. by apply elem_of_elements.
  - rewrite decide_False; [done|]. by rewrite <- elem_of_elements.
Qed.

(** X2.  Absorbing the same map twice is absorbing it once: a user that
    consumes a node through several of its inputs is counted once. *)
Theorem absorb_idempotent (self other : pass.HeightMap) :
  pass.absorb (pass.absorb self other) other = pass.absorb self other.
Proof.
  apply HeightMap_eq, map_eq. intros k.
  rewrite (absorb_lookup (pass.absorb self other) other), !absorb_lookup.
  destruct (pass.m_heights other !! k) as [v|]; [|done].
  cbn. f_equal. lia.
Qed.

(** X3.  Absorbing two maps gives the same result in either order, so the
    order in which the users of a node are visited does not matter. *)
Theorem absorb_commutes (self a b : pass.HeightMap) :
  pass.absorb (pass.absorb self a) b = pass.absorb (pass.absorb self b) a.
Proof.
  apply HeightMap_eq, map_eq. intros k.
  rewrite (absorb_lookup (pass.absorb self a) b),
    (absorb_lookup (pass.absorb self b) a), !absorb_lookup.
  destruct (pass.m_heights a !! k) as [va|], (pass.m_heights b !! k) as [vb|];
    try done; cbn; f_equal; lia.
Qed.

(** X4.  [absorb] never forgets a sink and never lowers a height: a sink is
    recorded afterwards exactly when one of the two maps recorded it, every
    height of the absorbing map is kept or raised, and a height recorded for
    a sink that was new to the absorbing map is never negative. *)
Theorem absorb_keeps_and_raises (self other : pass.HeightMap) (k : pass.NodePtr) :
  (pass.m_heights (pass.absorb self other) !! k = None
   <-> pass.m_heights self !! k = None /\ pass.m_heights other !! k = None)
  /\ (forall h, pass.m_heights self !! k = Some h ->
        exists h', pass.m_heights (pass.absorb self other) !! k = Some h'
                   /\ h <= h')
  /\ (forall h', pass.m_heights self !! k = None ->
        pass.m_heights (pass.absorb self other) !! k = Some h' -> 0 <= h').
Proof.
  rewrite absorb_lookup. split; [|split].
  - destruct (pass.m_heights other !! k); [|tauto].
    split; [done|]. by intros [_ ?].
  - intros h Hh. rewrite Hh.
    destruct (pass.m_heights other !! k) as [v|]; eexists; (split; [done|]);
      cbn; lia.
  - intros h' Hnone. rewrite Hnone.
    destruct (pass.m_heights other !! k) as [v|]; [|done].
    intros [= <-]. cbn. lia.
Qed.

(** X5.  Whatever order the [unordered_map] hands its entries out in,
    [absorb] builds the same map and [max_jump_to] returns the same
    distance. *)
Theorem heightmap_iteration_order_irrelevant (self other : pass.HeightMap)
    (entries_of_other entries_of_self : list (pass.NodePtr * Z)) :
  entries_of_other ≡ₚ map_to_list (pass.m_heights other) ->
  entries_of_self ≡ₚ map_to_list (pass.m_heights self) ->
  fold_left pass.absorb_entry entries_of_other (pass.m_heights self)
    = pass.m_heights (pass.absorb self other)
  /\ fold_left (pass.max_jump_entry (pass.m_heights other)) entries_of_self 0
     = pass.max_jump_to self other.
Proof.
  intros Hother Hself. split.
  - by apply absorb_any_order.
  - by apply max_jump_to_any_order.
Qed.

(** X6.  [max_jump_to] never returns a negative number and stays below
    2^63, so storing it in a [size_t] and handing it to [label_edge] as an
    [int64_t] again loses nothing. *)
Theorem jump_distance_conversions_exact
    (height_maps : gmap pass.NodePtr pass.HeightMap) (arg node : pass.NodePtr) :
  0 <= pass.max_jump_to (pass.at_ height_maps arg) (pass.at_ height_maps node)
    < 2 ^ 63
  /\ pass.jump_distance height_maps arg node
     = pass.max_jump_to (pass.at_ height_maps arg) (pass.at_ height_maps node)
  /\ Int64.wrap (pass.jump_distance height_maps arg node)
     = pass.jump_distance height_maps arg node.
Proof.
  assert (Hrange : 0 <= pass.max_jump_to (pass.at_ height_maps arg)
                          (pass.at_ height_maps node) < 2 ^ 63).
  { destruct (max_jump_to_spec (pass.at_ height_maps arg)
                (pass.at_ height_maps node))
      as (H0 & _ & [->|(k & v & t & _ & _ & Heq)]); [lia|].
    split; [exact H0|]. rewrite Heq.
    pose proof (wrap_in_range (Z.abs (Int64.sub t v))) as Hr.
    unfold Int64.in_range, Int64.half_modulus in Hr. unfold Int64.abs. lia. }
  assert (Hjump : pass.jump_distance height_maps arg node
                  = pass.max_jump_to (pass.at_ height_maps arg)
                                     (pass.at_ height_maps node)).
  { unfold pass.jump_distance. apply to_u64_small. lia. }
  split; [exact Hrange|]. split; [exact Hjump|].
  rewrite Hjump. apply wrap_small.
  unfold Int64.in_range, Int64.half_modulus. lia.
Qed.

(** X7.  A map is at distance 0 from itself, and the empty map is at
    distance 0 from every map. *)
Theorem max_jump_to_self_and_empty (a : pass.HeightMap) :
  pass.max_jump_to a a = 0
  /\ pass.max_jump_to pass.HeightMap_new a = 0
  /\ pass.max_jump_to a pass.HeightMap_new = 0.
Proof.
  split; [|split].
  - destruct (max_jump_to_spec a a) as (_ & _ & [?|(k & v & t & Hv & Ht & ->)]);
      [done|].
    rewrite Hv in Ht. injection Ht as <-.
    unfold Int64.abs, Int64.sub. rewrite Z.sub_diag. reflexivity.
  - reflexivity.
  - destruct (max_jump_to_spec a pass.HeightMap_new)
      as (_ & _ & [?|(k & v & t & _ & Ht & _)]); [done|].
    cbn in Ht. by rewrite lookup_empty in Ht.
Qed.

(** A witness for X5: the two entries of a map, handed out in the order the
    [gmap] does not use. *)
Lemma heightmap_iteration_order_irrelevant_witness :
  fold_left pass.absorb_entry [(7%nat, 2); (5%nat, 1)]
    (<[5%nat := 4]> {[ 7%nat := 0 ]} : gmap pass.NodePtr Z)
    = pass.m_heights
        (pass.absorb
           {| pass.m_heights := <[5%nat := 4]> {[ 7%nat := 0 ]} |}
           {| pass.m_heights := <[5%nat := 1]> {[ 7%nat := 2 ]} |})
  /\ fold_left
       (pass.max_jump_entry (<[5%nat := 1]> {[ 7%nat := 2 ]}))
       [(7%nat, 0); (5%nat, 4)] 0
     = pass.max_jump_to
         {| pass.m_heights := <[5%nat := 4]> {[ 7%nat := 0 ]} |}
         {| pass.m_heights := <[5%nat := 1]> {[ 7%nat := 2 ]} |}.
Proof.
  assert (Hother : [(7%nat, 2); (5%nat, 1)]
                   ≡ₚ map_to_list (<[5%nat := 1]> {[ 7%nat := 2 ]}
                                     : gmap pass.NodePtr Z))
    by (vm_compute; apply perm_swap).
  assert (Hself : [(7%nat, 0); (5%nat, 4)]
                  ≡ₚ map_to_list (<[5%nat := 4]> {[ 7%nat := 0 ]}
                                    : gmap pass.NodePtr Z))
    by (vm_compute; apply perm_swap).
  exact (heightmap_iteration_order_irrelevant
           {| pass.m_heights := <[5%nat := 4]> {[ 7%nat := 0 ]} |}
           {| pass.m_heights := <[5%nat := 1]> {[ 7%nat := 2 ]} |}
           _ _ Hother Hself).
Defined.

(** ** The finished analysis *)

Lemma at_absorb_target_ne heap_maps node target_node p :
  p <> node ->
  pass.at_ (pass.absorb_target node heap_maps target_node) p
  = pass.at_ heap_maps p.
Proof. intros Hne. unfold pass.absorb_target. by apply at_insert_ne. Qed.

Lemma at_fold_absorb_target_ne targets height_maps node p :
  p <> node ->
  pass.at_ (fold_left (pass.absorb_target node) targets height_maps) p
  = pass.at_ height_maps p.
Proof.
  intros Hne. revert height_maps.
  induction targets as [|t targets IH]; intros height_maps; [done|].
  cbn [fold_left]. rewrite IH. by apply at_absorb_target_ne.
Qed.

(** Processing nodes other than [p] leaves the map of [p] alone. *)
Lemma at_fold_absorb_users_notin heap nodes height_maps p :
  p ∉ nodes ->
  pass.at_ (fold_left (pass.absorb_users heap) nodes height_maps) p
  = pass.at_ height_maps p.
Proof.
  revert height_maps. induction nodes as [|n nodes IH]; intros height_maps Hp;
    [done|].
  apply not_elem_of_cons in Hp as [Hne Hp].
  cbn [fold_left]. rewrite IH by exact Hp.
  unfold pass.absorb_users. by apply at_fold_absorb_target_ne.
Qed.

(** Processing a node that is not its own user absorbs, into its map, the
    maps its users have at that moment. *)
Lemma at_fold_absorb_target_self targets height_maps node :
  node ∉ targets ->
  pass.at_ (fold_left (pass.absorb_target node) targets height_maps) node
  = fold_left pass.absorb (pass.at_ height_maps <$> targets)
              (pass.at_ height_maps node).
Proof.
  revert height_maps. induction targets as [|t targets IH];
    intros height_maps Hnode; [done|].
  apply not_elem_of_cons in Hnode as [Hne Hnode].
  cbn [fold_left fmap list_fmap]. rewrite IH by exact Hnode.
  unfold pass.absorb_target at 2. rewrite at_insert_eq. f_equal.
  apply list_fmap_ext. intros i t' Ht'.
  apply at_absorb_target_ne. intros ->.
  apply Hnode. by eapply list_elem_of_lookup_2.
Qed.

Lemma absorb_raises (self other : pass.HeightMap) k h :
  pass.m_heights self !! k = Some h ->
  exists h', pass.m_heights (pass.absorb self other) !! k = Some h' /\ h <= h'.
Proof.
  intros Hh. rewrite absorb_lookup, Hh.
  destruct (pass.m_heights other !! k) as [v|]; eexists; (split; [done|]);
    cbn; lia.
Qed.

(** The sinks a fold of [absorb] records come from the maps it started
    from or absorbed. *)
Lemma fold_absorb_lookup_Some maps (start : pass.HeightMap) k v :
  pass.m_heights (fold_left pass.absorb maps start) !! k = Some v ->
  is_Some (pass.m_heights start !! k)
  \/ exists hm, hm ∈ maps /\ is_Some (pass.m_heights hm !! k).
Proof.
  revert start. induction maps as [|hm maps IH]; intros start Hv.
  - left. by eexists.
  - cbn [fold_left] in Hv. apply IH in Hv as [[v' Hv']|(hm' & Hin & Hk)].
    + rewrite absorb_lookup in Hv'.
      destruct (pass.m_heights hm !! k) eqn:Hk.
      * right. exists hm. split; [apply list_elem_of_here|by eexists].
      * left. by eexists.
    + right. exists hm'. split; [by apply list_elem_of_further|done].
Qed.

(** A fold of [absorb] keeps or raises what it started from, and ends at
    least one above every height it absorbed. *)
Lemma fold_absorb_lower_bounds maps (start : pass.HeightMap) k :
  (forall h, pass.m_heights start !! k = Some h ->
     exists r, pass.m_heights (fold_left pass.absorb maps start) !! k = Some r
               /\ h <= r)
  /\ (forall hm v, hm ∈ maps -> pass.m_heights hm !! k = Some v ->
        exists r, pass.m_heights (fold_left pass.absorb maps start) !! k = Some r
                  /\ Int64.add v 1 <= r).
Proof.
  revert start. induction maps as [|hm maps IH]; intros start.
  - split.
    + intros h Hh. exists h. split; [exact Hh|lia].
    + intros hm v Hin. by apply elem_of_nil in Hin.
  - cbn [fold_left]. destruct (IH (pass.absorb start hm)) as [IHkeep IHabs].
    split.
    + intros h Hh.
      destruct (absorb_raises start hm k h Hh) as (h' & Hh' & Hle).
      destruct (IHkeep h' Hh') as (r & Hr & Hle'). exists r. split; [done|lia].
    + intros hm' v [->|Hin]%elem_of_cons Hv.
      * assert (exists h', pass.m_heights (pass.absorb start hm) !! k = Some h'
                           /\ Int64.add v 1 <= h') as (h' & Hh' & Hle).
        { rewrite absorb_lookup, Hv. eexists. split; [done|]. lia. }
        destruct (IHkeep h' Hh') as (r & Hr & Hle'). exists r. split; [done|lia].
      * by eapply IHabs.
Qed.

Lemma seed_sinks heap p k v :
  pass.m_heights (pass.seed heap p) !! k = Some v ->
  k = p /\ pass.description (pass.deref heap k) = "Result".
Proof.
  unfold pass.seed.
  destruct (String.eqb _ _) eqn:Hres.
  - rewrite HeightMap_of_singleton. intros [<- _]%lookup_singleton_Some.
    split; [done|]. by apply String.eqb_eq.
  - cbn. by rewrite lookup_empty.
Qed.

Section Sinks.

Variable heap : gmap pass.NodePtr pass.Node.
Variable ops : list pass.NodePtr.

Local Abbreviation sinks_are_results := (pass.sinks_are_results heap ops).

Lemma sinks_are_results_seed :
  sinks_are_results (pass.seed_height_maps heap ops).
Proof.
  intros p k v. unfold pass.at_. rewrite seed_height_maps_lookup.
  destruct (decide (p ∈ ops)) as [Hin|]; cbn.
  - intros [-> ?]%seed_sinks. done.
  - by rewrite lookup_empty.
Qed.

Lemma sinks_are_results_absorb_target height_maps node target_node :
  sinks_are_results height_maps ->
  sinks_are_results (pass.absorb_target node height_maps target_node).
Proof.
  intros Hinv p k v. destruct (decide (p = node)) as [->|Hne].
  - unfold pass.absorb_target. rewrite at_insert_eq, absorb_lookup.
    destruct (pass.m_heights (pass.at_ height_maps target_node) !! k) eqn:Ht.
    + intros _. by eapply Hinv.
    + by apply Hinv.
  - rewrite at_absorb_target_ne by done. by apply Hinv.
Qed.

Lemma sinks_are_results_absorb_users nodes height_maps :
  sinks_are_results height_maps ->
  sinks_are_results (fold_left (pass.absorb_users heap) nodes height_maps).
Proof.
  revert height_maps. induction nodes as [|n nodes IH]; intros height_maps Hinv;
    [done|].
  cbn [fold_left]. apply IH. unfold pass.absorb_users.
  generalize (pass.target_nodes (pass.deref heap n)). intros targets.
  revert height_maps Hinv. induction targets as [|t targets IHt];
    intros height_maps Hinv; [done|].
  cbn [fold_left]. by apply IHt, sinks_are_results_absorb_target.
Qed.

End Sinks.

(** X8.  Whatever the graph and the order in which it is processed, a sink
    recorded in any node's height map is a node of the function whose
    description is Result. *)
Theorem recorded_sinks_are_results
    (topological_sort : gmap pass.NodePtr pass.Node -> list pass.NodePtr
                        -> list pass.NodePtr)
    (heap : gmap pass.NodePtr pass.Node) (f : pass.Function)
    (p sink : pass.NodePtr) (h : Z) :
  pass.m_heights
    (pass.at_ (pass.compute_height_maps topological_sort heap f) p) !! sink
    = Some h ->
  sink ∈ pass.get_ops f
  /\ pass.description (pass.deref heap sink) = "Result".
Proof.
  apply (sinks_are_results_absorb_users heap (pass.get_ops f)).
  apply sinks_are_results_seed.
Qed.

Lemma recorded_sinks_are_results_witness :
  4%nat ∈ pass.get_ops pass.chain
  /\ pass.description (pass.deref pass.chain_heap 4%nat) = "Result".
Proof.
  exact (recorded_sinks_are_results pass.sort_by_reversal pass.chain_heap
           pass.chain 1%nat 4%nat 3 eq_refl).
Defined.

(** X9.  As long as the analysis makes fewer than 2^63 [absorb] calls, every
    height it records lies between 0 and the number of those calls: no
    height is negative and none has wrapped. *)
Theorem recorded_heights_bounded
    (topological_sort : gmap pass.NodePtr pass.Node -> list pass.NodePtr
                        -> list pass.NodePtr)
    (heap : gmap pass.NodePtr pass.Node) (f : pass.Function)
    (p sink : pass.NodePtr) (h : Z) :
  pass.absorb_calls heap (rev (topological_sort heap (pass.get_ops f))) < 2 ^ 63 ->
  pass.m_heights
    (pass.at_ (pass.compute_height_maps topological_sort heap f) p) !! sink
    = Some h ->
  0 <= h <= pass.absorb_calls heap (rev (topological_sort heap (pass.get_ops f))).
Proof.
  intros Hcalls Hh.
  eapply heights_within_at; [|apply absorb_calls_nonneg|exact Hh].
  by apply compute_height_maps_within.
Qed.

Lemma recorded_heights_bounded_witness :
  0 <= 3 <= pass.absorb_calls pass.chain_heap
              (rev (pass.sort_by_reversal pass.chain_heap
                      (pass.get_ops pass.chain))).
Proof.
  refine (recorded_heights_bounded pass.sort_by_reversal pass.chain_heap
            pass.chain 1%nat 4%nat 3 _ eq_refl).
  vm_compute. reflexivity.
Defined.

(** The map of a node that is processed once, after all its users and
    without being its own user, is its seed with the finished maps of its
    users absorbed. *)
Lemma processed_node_equation heap (seeds : gmap pass.NodePtr pass.HeightMap)
    (pre post : list pass.NodePtr) (n : pass.NodePtr) :
  n ∉ pre -> n ∉ post ->
  (forall t, t ∈ pass.target_nodes (pass.deref heap n) -> t <> n /\ t ∉ post) ->
  pass.at_ (fold_left (pass.absorb_users heap) (pre ++ n :: post) seeds) n
  = fold_left pass.absorb
      (pass.at_ (fold_left (pass.absorb_users heap) (pre ++ n :: post) seeds)
         <$> pass.target_nodes (pass.deref heap n))
      (pass.at_ seeds n).
Proof.
  intros Hpre Hpost Htargets.
  rewrite fold_left_app. cbn [fold_left].
  set (before := fold_left (pass.absorb_users heap) pre seeds).
  rewrite at_fold_absorb_users_notin by exact Hpost.
  unfold pass.absorb_users at 1.
  rewrite at_fold_absorb_target_self.
  2: { intros Hin. by destruct (Htargets n Hin). }
  unfold before at 2. rewrite at_fold_absorb_users_notin by exact Hpre.
  f_equal. apply list_fmap_ext. intros i t Ht.
  apply list_elem_of_lookup_2 in Ht. destruct (Htargets t Ht) as [Hne Htpost].
  rewrite at_fold_absorb_users_notin by exact Htpost.
  unfold pass.absorb_users. by rewrite at_fold_absorb_target_ne.
Qed.

(** X10.  When the reversed topological order visits a node once, after all
    of its users, and the node does not use itself, the finished height map
    of the node is its seed with the finished height maps of its users
    absorbed, one per input it feeds. *)
Theorem finished_map_is_seed_absorbing_users
    (topological_sort : gmap pass.NodePtr pass.Node -> list pass.NodePtr
                        -> list pass.NodePtr)
    (heap : gmap pass.NodePtr pass.Node) (f : pass.Function)
    (pre post : list pass.NodePtr) (n : pass.NodePtr) :
  rev (topological_sort heap (pass.get_ops f)) = pre ++ n :: post ->
  n ∉ pre -> n ∉ post ->
  (forall t, t ∈ pass.target_nodes (pass.deref heap n) -> t <> n /\ t ∉ post) ->
  pass.at_ (pass.compute_height_maps topological_sort heap f) n
  = fold_left pass.absorb
      (pass.at_ (pass.compute_height_maps topological_sort heap f)
         <$> pass.target_nodes (pass.deref heap n))
      (pass.at_ (pass.seed_height_maps heap (pass.get_ops f)) n).
Proof.
  intros Horder Hpre Hpost Htargets. unfold pass.compute_height_maps.
  rewrite Horder. by apply processed_node_equation.
Qed.

(** On the path, B is visited after D and C and before A. *)
Lemma finished_map_is_seed_absorbing_users_witness :
  pass.at_ (pass.compute_height_maps pass.sort_by_reversal
              pass.chain_heap pass.chain) 2%nat
  = fold_left pass.absorb
      (pass.at_ (pass.compute_height_maps pass.sort_by_reversal
                   pass.chain_heap pass.chain)
         <$> pass.target_nodes (pass.deref pass.chain_heap 2%nat))
      (pass.at_ (pass.seed_height_maps pass.chain_heap
                   (pass.get_ops pass.chain)) 2%nat).
Proof.
  apply (finished_map_is_seed_absorbing_users pass.sort_by_reversal
           pass.chain_heap pass.chain [4; 3]%nat [1]%nat 2%nat eq_refl).
  - by_computation.
  - by_computation.
  - intros t Ht. apply list_elem_of_In in Ht. vm_compute in Ht.
    destruct Ht as [<-|[]]. split; by_computation.
Defined.

Lemma jump_distance_unwrapped
    (height_maps : gmap pass.NodePtr pass.HeightMap) (arg node : pass.NodePtr) :
  pass.jump_distance height_maps arg node
  = pass.max_jump_to (pass.at_ height_maps arg) (pass.at_ height_maps node).
Proof.
  unfold pass.jump_distance. apply to_u64_small.
  destruct (max_jump_to_spec (pass.at_ height_maps arg)
              (pass.at_ height_maps node))
    as (H0 & _ & [->|(k & v & t & _ & _ & Heq)]); [lia|].
  split; [exact H0|]. rewrite Heq.
  pose proof (wrap_in_range (Z.abs (Int64.sub t v))) as Hr.
  unfold Int64.in_range, Int64.half_modulus in Hr. unfold Int64.abs. lia.
Qed.

(** X11.  Under the conditions of X10 and with fewer than 2^63 - 1 [absorb]
    calls, heights strictly fall along every edge: each sink the user
    records is recorded by the node at least one higher, so the jump
    distance of the edge is at least 1. *)
Theorem heights_fall_along_edges
    (topological_sort : gmap pass.NodePtr pass.Node -> list pass.NodePtr
                        -> list pass.NodePtr)
    (heap : gmap pass.NodePtr pass.Node) (f : pass.Function)
    (pre post : list pass.NodePtr) (n user sink : pass.NodePtr) (hu : Z) :
  rev (topological_sort heap (pass.get_ops f)) = pre ++ n :: post ->
  n ∉ pre -> n ∉ post ->
  (forall t, t ∈ pass.target_nodes (pass.deref heap n) -> t <> n /\ t ∉ post) ->
  pass.absorb_calls heap (rev (topological_sort heap (pass.get_ops f)))
    < 2 ^ 63 - 1 ->
  user ∈ pass.target_nodes (pass.deref heap n) ->
  pass.m_heights
    (pass.at_ (pass.compute_height_maps topological_sort heap f) user) !! sink
    = Some hu ->
  (exists hn,
     pass.m_heights
       (pass.at_ (pass.compute_height_maps topological_sort heap f) n) !! sink
       = Some hn
     /\ hu + 1 <= hn)
  /\ 1 <= pass.jump_distance
            (pass.compute_height_maps topological_sort heap f) n user.
Proof.
  intros Horder Hpre Hpost Htargets Hcalls Huser Hhu.
  assert (Hwithin := compute_height_maps_within topological_sort heap f
                       ltac:(lia)).
  assert (Hnonneg := absorb_calls_nonneg heap
                       (rev (topological_sort heap (pass.get_ops f)))).
  assert (Heq : pass.at_ (pass.compute_height_maps topological_sort heap f) n
                = fold_left pass.absorb
                    (pass.at_ (pass.compute_height_maps topological_sort heap f)
                       <$> pass.target_nodes (pass.deref heap n))
                    (pass.at_ (pass.seed_height_maps heap (pass.get_ops f)) n)).
  { unfold pass.compute_height_maps. rewrite Horder.
    by apply processed_node_equation. }
  set (final := pass.compute_height_maps topological_sort heap f) in *.
  assert (Hbu : 0 <= hu <= pass.absorb_calls heap
                            (rev (topological_sort heap (pass.get_ops f))))
    by (eapply heights_within_at; eauto).
  assert (Hn : exists hn, pass.m_heights (pass.at_ final n) !! sink = Some hn
                          /\ hu + 1 <= hn).
  { rewrite Heq.
    destruct (fold_absorb_lower_bounds
                (pass.at_ final <$> pass.target_nodes (pass.deref heap n))
                (pass.at_ (pass.seed_height_maps heap (pass.get_ops f)) n) sink)
      as [_ Habs].
    destruct (Habs (pass.at_ final user) hu) as (r & Hr & Hle).
    - apply list_elem_of_fmap. by exists user.
    - exact Hhu.
    - exists r. split; [exact Hr|].
      unfold Int64.add in Hle. rewrite wrap_small in Hle; [lia|].
      unfold Int64.in_range, Int64.half_modulus. lia. }
  split; [exact Hn|].
  destruct Hn as (hn & Hhn & Hle).
  assert (Hbn : 0 <= hn <= pass.absorb_calls heap
                            (rev (topological_sort heap (pass.get_ops f))))
    by (eapply heights_within_at; eauto).
  rewrite jump_distance_unwrapped.
  destruct (max_jump_to_spec (pass.at_ final n) (pass.at_ final user))
    as (_ & Hub & _).
  pose proof (Hub sink hn hu Hhn Hhu) as Hd.
  rewrite distance_exact in Hd by lia. lia.
Qed.

(** On the path, C records D at height 1, B at height 2. *)
Lemma heights_fall_along_edges_witness :
  (exists hn,
     pass.m_heights
       (pass.at_ (pass.compute_height_maps pass.sort_by_reversal
                    pass.chain_heap pass.chain) 2%nat) !! 4%nat = Some hn
     /\ 1 + 1 <= hn)
  /\ 1 <= pass.jump_distance
            (pass.compute_height_maps pass.sort_by_reversal
               pass.chain_heap pass.chain) 2%nat 3%nat.
Proof.
  apply (heights_fall_along_edges pass.sort_by_reversal
           pass.chain_heap pass.chain [4; 3]%nat [1]%nat 2%nat 3%nat 4%nat 1
           eq_refl).
  - by_computation.
  - by_computation.
  - intros t Ht. apply list_elem_of_In in Ht. vm_compute in Ht.
    destruct Ht as [<-|[]]. split; by_computation.
  - vm_compute. reflexivity.
  - vm_compute. apply list_elem_of_here.
  - vm_compute. reflexivity.
Defined.

(** ** What the pass does to its surroundings *)

Lemma string_app_assoc (a b c : string) : (a +:+ b) +:+ c = a +:+ (b +:+ c).
Proof.
  induction a as [|x a IH]; [reflexivity|].
  change (String x ((a +:+ b) +:+ c) = String x (a +:+ (b +:+ c))).
  by f_equal.
Qed.

Lemma string_app_nil_r (a : string) : a +:+ EmptyString = a.
Proof.
  induction a as [|x a IH]; [reflexivity|].
  change (String x (a +:+ EmptyString) = String x a). by f_equal.
Qed.

Lemma reads_only_ret {A : Type} (a : A) : pass.reads_only (mret a).
Proof. intros w. split; [reflexivity|by eexists]. Qed.

Lemma reads_only_bind {A B : Type} (m : pass.M A) (k : A -> pass.M B) :
  pass.reads_only m -> (forall a, pass.reads_only (k a)) ->
  pass.reads_only (m ≫= k).
Proof.
  intros Hm Hk w. destruct (Hm w) as [Hw [a Ha]].
  rewrite (bind_Some m k w a Ha), Hw. apply Hk.
Qed.

Lemma reads_only_gets {A : Type} (f : pass.World -> A) :
  pass.reads_only (pass.gets f).
Proof. intros w. split; [reflexivity|by eexists]. Qed.

Lemma reads_only_getenv name : pass.reads_only (pass.getenv name).
Proof. apply reads_only_gets. Qed.

Lemma reads_only_load p : pass.reads_only (pass.load p).
Proof. apply reads_only_gets. Qed.

Create HintDb reads discriminated.

#[local] Hint Resolve reads_only_ret reads_only_gets reads_only_getenv
  reads_only_load : reads.

Ltac reads_step :=
  lazymatch goal with
  | |- pass.reads_only (_ ≫= _) => apply reads_only_bind; [|intros ?]
  | |- pass.reads_only (match ?x with _ => _ end) => destruct x
  | |- pass.reads_only (let _ := _ in _) => cbv zeta
  | |- _ => solve [auto with reads]
  end.

Lemma reads_only_label_edge src dst arg_index jump_distance :
  pass.reads_only (pass.label_edge src dst arg_index jump_distance).
Proof. unfold pass.label_edge. repeat reads_step. Qed.

Lemma reads_only_get_file_ext : pass.reads_only pass.get_file_ext.
Proof. unfold pass.get_file_ext. repeat reads_step. Qed.

Lemma drawn_refl w : pass.drawn w w.
Proof.
  split_and!; try done. exists EmptyString. by rewrite string_app_nil_r.
Qed.

Lemma drawn_trans w1 w2 w3 : pass.drawn w1 w2 -> pass.drawn w2 w3 -> pass.drawn w1 w3.
Proof.
  intros (Hh & He & Hc & Hf & Hk & [s Hs] & Hm & Hl)
         (Hh' & He' & Hc' & Hf' & Hk' & [s' Hs'] & Hm' & Hl').
  split_and!; try congruence.
  - exists (s +:+ s'). by rewrite Hs', Hs, string_app_assoc.
  - set_solver.
Qed.

Lemma draws_only_reads {A : Type} (m : pass.M A) :
  pass.reads_only m -> pass.draws_only m.
Proof. intros Hm w. destruct (Hm w) as [-> _]. apply drawn_refl. Qed.

Lemma draws_only_returning {A : Type} (a : option A) :
  pass.draws_only (pass.returning a).
Proof. intros w. apply drawn_refl. Qed.

Lemma draws_only_bind {A B : Type} (m : pass.M A) (k : A -> pass.M B) :
  pass.draws_only m -> (forall a, pass.draws_only (k a)) ->
  pass.draws_only (m ≫= k).
Proof.
  intros Hm Hk w. destruct (m w).1 as [a|] eqn:Ha.
  - rewrite (bind_Some m k w a Ha).
    eapply drawn_trans; [apply Hm|apply Hk].
  - rewrite (bind_None m k w Ha). apply Hm.
Qed.

Lemma draws_only_ss_put s : pass.draws_only (pass.ss_put s).
Proof. intros w. split_and!; try done. by exists s. Qed.

Lemma draws_only_mark_with_attributes p :
  pass.draws_only (pass.mark_with_attributes p).
Proof.
  intros w. split_and!; try done.
  - exists EmptyString. cbn. by rewrite string_app_nil_r.
  - cbn. set_solver.
Qed.

Lemma draws_only_nvtos_static : pass.draws_only pass.nvtos_static.
Proof.
  intros w. destruct (shape_labels_nvtos_static w) as (_ & _ & Hl).
  split_and!; try exact Hl; unfold pass.nvtos_static;
    destruct (pass.nvtos w); try done;
    exists EmptyString; cbn; by rewrite string_app_nil_r.
Qed.

Lemma draws_only_nvtot_static : pass.draws_only pass.nvtot_static.
Proof.
  intros w. unfold pass.nvtot_static.
  destruct (pass.nvtot w); [apply drawn_refl|].
  split_and!; try done. exists EmptyString. cbn. by rewrite string_app_nil_r.
Qed.

Lemma draws_only_for_each {A S : Type} (l : list A) (body : S -> A -> pass.M S)
    (s : S) :
  (forall s' x, pass.draws_only (body s' x)) ->
  pass.draws_only (pass.for_each l body s).
Proof.
  intros Hbody. revert s. induction l as [|x l IH]; intros s; cbn [pass.for_each].
  - apply draws_only_reads, reads_only_ret.
  - apply draws_only_bind; [apply Hbody|exact IH].
Qed.

Ltac draws_step :=
  lazymatch goal with
  | |- pass.draws_only (_ ≫= _) => apply draws_only_bind; [|intros ?]
  | |- pass.draws_only (match ?x with _ => _ end) => destruct x
  | |- pass.draws_only (let _ := _ in _) => cbv zeta
  | |- pass.draws_only (pass.for_each _ _ _) =>
      apply draws_only_for_each; intros ? ?
  | |- pass.draws_only (pass.ss_put _) => apply draws_only_ss_put
  | |- pass.draws_only (pass.mark_with_attributes _) =>
      apply draws_only_mark_with_attributes
  | |- pass.draws_only pass.nvtos_static => apply draws_only_nvtos_static
  | |- pass.draws_only pass.nvtot_static => apply draws_only_nvtot_static
  | |- pass.draws_only (pass.returning _) => apply draws_only_returning
  | |- pass.draws_only (pass.label_edge _ _ _ _) =>
      apply draws_only_reads, reads_only_label_edge
  | |- _ => solve [apply draws_only_reads; auto with reads]
  end.

Section Drawing.

Variable topological_sort : gmap pass.NodePtr pass.Node -> list pass.NodePtr
                            -> list pass.NodePtr.
Variable traverse_nodes : gmap pass.NodePtr pass.Node -> pass.Function
                          -> list pass.NodePtr.
Variable get_shape : pass.Node -> option Shape.
Variable vector_to_string : Shape -> string.
Variable c_type_string : element.Type_t -> string.
Variable join : list string -> string -> string.
Variable _WIN32 : bool.
Variable this : pass.VisualizeTree.

Lemma draws_only_get_attributes node :
  pass.draws_only
    (pass.get_attributes get_shape vector_to_string c_type_string join this node).
Proof. unfold pass.get_attributes. repeat draws_step. Qed.

Lemma draws_only_add_attributes node :
  pass.draws_only
    (pass.add_attributes get_shape vector_to_string c_type_string join this node).
Proof.
  unfold pass.add_attributes.
  repeat first [ apply draws_only_get_attributes | draws_step ].
Qed.

Lemma draws_only_draw_edge height_maps node locals arg :
  pass.draws_only
    (pass.draw_edge get_shape vector_to_string c_type_string join this
       height_maps node locals arg).
Proof.
  unfold pass.draw_edge.
  repeat first [ apply draws_only_add_attributes | draws_step ].
Qed.

Lemma draws_only_draw_node height_maps fake_node_ctr node :
  pass.draws_only
    (pass.draw_node get_shape vector_to_string c_type_string join this
       height_maps fake_node_ctr node).
Proof.
  unfold pass.draw_node.
  repeat first [ apply draws_only_draw_edge | draws_step ].
Qed.

Lemma draws_only_visualize_function u f :
  pass.draws_only
    (pass.visualize_function topological_sort traverse_nodes get_shape
       vector_to_string c_type_string join this u f).
Proof.
  unfold pass.visualize_function.
  repeat first [ apply draws_only_draw_node | draws_step ].
Qed.

(** The loop of [run_on_module] over the functions only draws. *)
Lemma draws_only_functions functions :
  pass.draws_only
    (pass.for_each functions
       (pass.visualize_function topological_sort traverse_nodes get_shape
          vector_to_string c_type_string join this) tt).
Proof. apply draws_only_for_each. intros. apply draws_only_visualize_function. Qed.

End Drawing.

(** The extension [render] asks [dot] for, read off the environment. *)
Lemma get_file_ext_value w :
  pass.get_file_ext w
  = (Some (pass.drop_leading_dot
             (default "dot"
                (pass.environ w !! "NGRAPH_VISUALIZE_TREE_OUTPUT_FORMAT"))),
     w).
Proof. reflexivity. Qed.

(** What [render] does, case by case; it always returns. *)
Lemma render_spec _WIN32 this w :
  (pass.render _WIN32 this w).1 = Some tt
  /\ pass.environ (pass.render _WIN32 this w).2 = pass.environ w
  /\ pass.can_open (pass.render _WIN32 this w).2 = pass.can_open w
  /\ pass.m_ss (pass.render _WIN32 this w).2 = pass.m_ss w
  /\ pass.m_nodes_with_attributes (pass.render _WIN32 this w).2
     = pass.m_nodes_with_attributes w
  /\ pass.files (pass.render _WIN32 this w).2
     = (if pass.can_open w (pass.m_name this +:+ ".dot")
        then pass.files w
             ++ [(pass.m_name this +:+ ".dot",
                  "digraph ngraph" +:+ pass.endl +:+ "{" +:+ pass.endl
                  +:+ pass.m_ss w +:+ "}" +:+ pass.endl)]
        else pass.files w)
  /\ pass.commands (pass.render _WIN32 this w).2
     = (if pass.can_open w (pass.m_name this +:+ ".dot")
           && negb (pass.m_dot_only this)
           && negb (String.eqb
                      (pass.drop_leading_dot
                         (default "dot"
                            (pass.environ w
                               !! "NGRAPH_VISUALIZE_TREE_OUTPUT_FORMAT")))
                      "dot")
           && negb _WIN32
        then pass.commands w
             ++ ["dot -T"
                 +:+ pass.drop_leading_dot
                       (default "dot"
                          (pass.environ w
                             !! "NGRAPH_VISUALIZE_TREE_OUTPUT_FORMAT"))
                 +:+ " " +:+ (pass.m_name this +:+ ".dot") +:+ " -o"
                 +:+ pass.m_name this +:+ "."
                 +:+ pass.drop_leading_dot
                       (default "dot"
                          (pass.environ w
                             !! "NGRAPH_VISUALIZE_TREE_OUTPUT_FORMAT"))]
        else pass.commands w).
Proof.
  unfold pass.render. cbv zeta. rewrite bind_gets.
  destruct (pass.can_open w (pass.m_name this +:+ ".dot")); [|done].
  rewrite bind_gets.
  rewrite (bind_Some (pass.write_file _ _) _ w tt eq_refl).
  match goal with
  | |- context [(pass.get_file_ext ≫= ?k) ?w1] =>
      rewrite (bind_Some pass.get_file_ext k w1 _ eq_refl)
  end.
  cbn [snd pass.get_file_ext pass.write_file pass.environ].
  destruct (pass.m_dot_only this); [done|].
  destruct (String.eqb _ "dot"); [done|].
  destruct _WIN32; done.
Qed.

Section Running.

Variable topological_sort : gmap pass.NodePtr pass.Node -> list pass.NodePtr
                            -> list pass.NodePtr.
Variable traverse_nodes : gmap pass.NodePtr pass.Node -> pass.Function
                          -> list pass.NodePtr.
Variable get_shape : pass.Node -> option Shape.
Variable vector_to_string : Shape -> string.
Variable c_type_string : element.Type_t -> string.
Variable join : list string -> string -> string.
Variable _WIN32 : bool.
Variable this : pass.VisualizeTree.
Variable functions : list pass.Function.
Variable w : pass.World.

Local Abbreviation run :=
  (pass.run_on_module topological_sort traverse_nodes get_shape
     vector_to_string c_type_string join _WIN32 this functions w).
Local Abbreviation drawing :=
  (pass.for_each functions
     (pass.visualize_function topological_sort traverse_nodes get_shape
        vector_to_string c_type_string join this) tt w).

(** [run_on_module] is the drawing loop followed, if no exception escaped
    it, by [render]. *)
Lemma run_on_module_cases :
  (drawing.1 = None /\ run = (None, drawing.2))
  \/ (drawing.1 = Some tt
      /\ run = (Some false, (pass.render _WIN32 this drawing.2).2)).
Proof.
  unfold pass.run_on_module.
  destruct drawing.1 as [[]|] eqn:Hd.
  - right. split; [done|]. rewrite (bind_Some _ _ w tt Hd).
    destruct (render_spec _WIN32 this drawing.2) as [Hr _].
    by rewrite (bind_Some _ _ _ tt Hr).
  - left. split; [done|]. by rewrite (bind_None _ _ w Hd).
Qed.

End Running.

(** X12.  [add_attributes] describes a node once: called again for the same
    node, at once or later in the same state, it returns the empty string
    and changes nothing. *)
Theorem add_attributes_only_once
    (get_shape : pass.Node -> option Shape) (vector_to_string : Shape -> string)
    (c_type_string : element.Type_t -> string)
    (join : list string -> string -> string)
    (this : pass.VisualizeTree) (node : pass.NodePtr) (w : pass.World) :
  node ∈ pass.m_nodes_with_attributes
           (pass.add_attributes get_shape vector_to_string c_type_string join
              this node w).2
  /\ pass.add_attributes get_shape vector_to_string c_type_string join this node
       (pass.add_attributes get_shape vector_to_string c_type_string join
          this node w).2
     = (Some EmptyString,
        (pass.add_attributes get_shape vector_to_string c_type_string join
           this node w).2).
Proof.
  assert (Hmarked : node ∈ pass.m_nodes_with_attributes
                      (pass.add_attributes get_shape vector_to_string
                         c_type_string join this node w).2).
  { unfold pass.add_attributes. rewrite bind_gets.
    destruct (bool_decide (node ∈ pass.m_nodes_with_attributes w)) eqn:Hseen.
    - by apply bool_decide_eq_true in Hseen.
    - rewrite (bind_Some (pass.mark_with_attributes node) _ w tt eq_refl).
      destruct (draws_only_get_attributes get_shape vector_to_string
                  c_type_string join this node
                  (pass.mark_with_attributes node w).2)
        as (_ & _ & _ & _ & _ & _ & Hm & _).
      apply Hm. cbn. set_solver. }
  split; [exact Hmarked|].
  set (w' := (pass.add_attributes get_shape vector_to_string c_type_string join
                this node w).2) in *.
  unfold pass.add_attributes at 1. rewrite bind_gets.
  rewrite bool_decide_eq_true_2 by exact Hmarked. reflexivity.
Qed.

(** X13.  [run_on_module] never clears what the pass object has gathered:
    the environment and the set of openable files are as before, [m_ss]
    keeps its old contents as a prefix, no node leaves
    [m_nodes_with_attributes], and the written files and launched commands
    are only added to. *)
Theorem run_on_module_only_appends
    (topological_sort : gmap pass.NodePtr pass.Node -> list pass.NodePtr
                        -> list pass.NodePtr)
    (traverse_nodes : gmap pass.NodePtr pass.Node -> pass.Function
                      -> list pass.NodePtr)
    (get_shape : pass.Node -> option Shape) (vector_to_string : Shape -> string)
    (c_type_string : element.Type_t -> string)
    (join : list string -> string -> string) (_WIN32 : bool)
    (this : pass.VisualizeTree) (functions : list pass.Function)
    (w : pass.World) :
  pass.environ
    (pass.run_on_module topological_sort traverse_nodes get_shape
       vector_to_string c_type_string join _WIN32 this functions w).2
  = pass.environ w
  /\ pass.can_open
       (pass.run_on_module topological_sort traverse_nodes get_shape
          vector_to_string c_type_string join _WIN32 this functions w).2
     = pass.can_open w
  /\ (exists s,
        pass.m_ss
          (pass.run_on_module topological_sort traverse_nodes get_shape
             vector_to_string c_type_string join _WIN32 this functions w).2
        = pass.m_ss w +:+ s)
  /\ pass.m_nodes_with_attributes w
     ⊆ pass.m_nodes_with_attributes
         (pass.run_on_module topological_sort traverse_nodes get_shape
            vector_to_string c_type_string join _WIN32 this functions w).2
  /\ (exists fs,
        pass.files
          (pass.run_on_module topological_sort traverse_nodes get_shape
             vector_to_string c_type_string join _WIN32 this functions w).2
        = pass.files w ++ fs)
  /\ (exists cs,
        pass.commands
          (pass.run_on_module topological_sort traverse_nodes get_shape
             vector_to_string c_type_string join _WIN32 this functions w).2
        = pass.commands w ++ cs).
Proof.
  destruct (draws_only_functions topological_sort traverse_nodes get_shape
              vector_to_string c_type_string join this functions w)
    as (_ & He & Hc & Hf & Hk & Hs & Hm & _).
  destruct (run_on_module_cases topological_sort traverse_nodes get_shape
              vector_to_string c_type_string join _WIN32 this functions w)
    as [[_ ->]|[_ ->]]; cbn [snd].
  - split_and!; try done.
    + exists []. by rewrite app_nil_r.
    + exists []. by rewrite app_nil_r.
  - destruct (render_spec _WIN32 this
                (pass.for_each functions
                   (pass.visualize_function topological_sort traverse_nodes
                      get_shape vector_to_string c_type_string join this) tt w).2)
      as (_ & He' & Hc' & Hs' & Hm' & Hf' & Hk').
    rewrite He', Hc', Hs', Hm', Hf', Hk', He, Hc, Hf, Hk.
    split_and!.
    + reflexivity.
    + reflexivity.
    + exact Hs.
    + exact Hm.
    + destruct (pass.can_open w _); [eexists; reflexivity|].
      exists []. by rewrite app_nil_r.
    + match goal with |- context [if ?b then _ else _] => destruct b end;
        [eexists; reflexivity|].
      exists []. by rewrite app_nil_r.
Qed.

(** X14.  When [run_on_module] returns and the dot file can be opened, it
    has written one file, named after the pass and holding everything
    [m_ss] has gathered so far between the digraph header and the closing
    brace.  When the file cannot be opened, or when an exception escapes the
    drawing loop (so that [render] is never reached), nothing is written and
    nothing is launched. *)
Theorem run_on_module_writes_the_dot_file
    (topological_sort : gmap pass.NodePtr pass.Node -> list pass.NodePtr
                        -> list pass.NodePtr)
    (traverse_nodes : gmap pass.NodePtr pass.Node -> pass.Function
                      -> list pass.NodePtr)
    (get_shape : pass.Node -> option Shape) (vector_to_string : Shape -> string)
    (c_type_string : element.Type_t -> string)
    (join : list string -> string -> string) (_WIN32 : bool)
    (this : pass.VisualizeTree) (functions : list pass.Function)
    (w : pass.World) :
  (forall b,
     (pass.run_on_module topological_sort traverse_nodes get_shape
        vector_to_string c_type_string join _WIN32 this functions w).1 = Some b ->
     pass.can_open w (pass.m_name this +:+ ".dot") = true ->
     pass.files
       (pass.run_on_module topological_sort traverse_nodes get_shape
          vector_to_string c_type_string join _WIN32 this functions w).2
     = pass.files w
       ++ [(pass.m_name this +:+ ".dot",
            "digraph ngraph" +:+ pass.endl +:+ "{" +:+ pass.endl
            +:+ pass.m_ss
                  (pass.run_on_module topological_sort traverse_nodes get_shape
                     vector_to_string c_type_string join _WIN32 this
                     functions w).2
            +:+ "}" +:+ pass.endl)])
  /\ (pass.can_open w (pass.m_name this +:+ ".dot") = false
      \/ (pass.run_on_module topological_sort traverse_nodes get_shape
            vector_to_string c_type_string join _WIN32 this functions w).1 = None ->
      pass.files
        (pass.run_on_module topological_sort traverse_nodes get_shape
           vector_to_string c_type_string join _WIN32 this functions w).2
      = pass.files w
      /\ pass.commands
           (pass.run_on_module topological_sort traverse_nodes get_shape
              vector_to_string c_type_string join _WIN32 this functions w).2
         = pass.commands w).
Proof.
  destruct (draws_only_functions topological_sort traverse_nodes get_shape
              vector_to_string c_type_string join this functions w)
    as (_ & He & Hc & Hf & Hk & Hs & Hm & _).
  destruct (run_on_module_cases topological_sort traverse_nodes get_shape
              vector_to_string c_type_string join _WIN32 this functions w)
    as [[_ ->]|[_ ->]]; cbn [fst snd].
  - split; [done|]. intros _. done.
  - destruct (render_spec _WIN32 this
                (pass.for_each functions
                   (pass.visualize_function topological_sort traverse_nodes
                      get_shape vector_to_string c_type_string join this) tt w).2)
      as (_ & He' & Hc' & Hs' & Hm' & Hf' & Hk').
    rewrite Hs', Hf', Hk', Hc, Hf, Hk. split.
    + intros b _ ->. done.
    + intros [-> | ?]; done.
Qed.

(** X15.  [run_on_module] launches [dot] only on request: never when the
    pass was built dot-only, when the file was compiled with _WIN32, or when
    the output format is unset, dot or .dot; and when it returns, the dot
    file could be opened, the pass is not dot-only, _WIN32 is not defined
    and the format is another one, exactly one command has been launched,
    with the format's leading dot dropped. *)
Theorem run_on_module_launches_dot_on_request
    (topological_sort : gmap pass.NodePtr pass.Node -> list pass.NodePtr
                        -> list pass.NodePtr)
    (traverse_nodes : gmap pass.NodePtr pass.Node -> pass.Function
                      -> list pass.NodePtr)
    (get_shape : pass.Node -> option Shape) (vector_to_string : Shape -> string)
    (c_type_string : element.Type_t -> string)
    (join : list string -> string -> string) (_WIN32 : bool)
    (this : pass.VisualizeTree) (functions : list pass.Function)
    (w : pass.World) :
  (pass.m_dot_only this = true
   \/ _WIN32 = true
   \/ pass.environ w !! "NGRAPH_VISUALIZE_TREE_OUTPUT_FORMAT" = None
   \/ pass.environ w !! "NGRAPH_VISUALIZE_TREE_OUTPUT_FORMAT" = Some "dot"
   \/ pass.environ w !! "NGRAPH_VISUALIZE_TREE_OUTPUT_FORMAT" = Some ".dot" ->
   pass.commands
     (pass.run_on_module topological_sort traverse_nodes get_shape
        vector_to_string c_type_string join _WIN32 this functions w).2
   = pass.commands w)
  /\ (forall b format ext,
        (pass.run_on_module topological_sort traverse_nodes get_shape
           vector_to_string c_type_string join _WIN32 this functions w).1
        = Some b ->
        pass.m_dot_only this = false ->
        _WIN32 = false ->
        pass.can_open w (pass.m_name this +:+ ".dot") = true ->
        pass.environ w !! "NGRAPH_VISUALIZE_TREE_OUTPUT_FORMAT" = Some format ->
        ext = pass.drop_leading_dot format ->
        ext <> "dot" ->
        pass.commands
          (pass.run_on_module topological_sort traverse_nodes get_shape
             vector_to_string c_type_string join _WIN32 this functions w).2
        = pass.commands w
          ++ ["dot -T" +:+ ext +:+ " " +:+ (pass.m_name this +:+ ".dot")
              +:+ " -o" +:+ pass.m_name this +:+ "." +:+ ext]).
Proof.
  destruct (draws_only_functions topological_sort traverse_nodes get_shape
              vector_to_string c_type_string join this functions w)
    as (_ & He & Hc & Hf & Hk & Hs & Hm & _).
  destruct (run_on_module_cases topological_sort traverse_nodes get_shape
              vector_to_string c_type_string join _WIN32 this functions w)
    as [[_ ->]|[_ ->]]; cbn [fst snd].
  - split; [done|]. intros b format ext [=].
  - destruct (render_spec _WIN32 this
                (pass.for_each functions
                   (pass.visualize_function topological_sort traverse_nodes
                      get_shape vector_to_string c_type_string join this) tt w).2)
      as (_ & He' & Hc' & Hs' & Hm' & Hf' & Hk').
    rewrite Hk', Hc, Hk, He. split.
    + intros [-> | [-> | [-> | [-> | ->]]]]; cbn;
        by rewrite ?andb_false_r.
    + intros b format ext _ -> -> -> Hformat -> Hext. rewrite Hformat.
      cbn [default from_option id].
      apply String.eqb_neq in Hext. rewrite Hext. reflexivity.
Qed.

(** ** The counter of fake nodes *)

Section Counters.

Variable get_shape : pass.Node -> option Shape.
Variable vector_to_string : Shape -> string.
Variable c_type_string : element.Type_t -> string.
Variable join : list string -> string -> string.
Variable this : pass.VisualizeTree.
Variable height_maps : gmap pass.NodePtr pass.HeightMap.
Variable node : pass.NodePtr.

Local Abbreviation draw_edge :=
  (pass.draw_edge get_shape vector_to_string c_type_string join this
     height_maps node).

Ltac locals_step H :=
  let a := fresh "a" in
  apply bind_Some_inv in H as (a & _ & H).

(** One edge, when drawing it returns: the argument index moves on, and the
    counter of fake nodes moves on exactly when the edge is drawn through a
    fake node. *)
Lemma draw_edge_locals arg_index fake_node_ctr arg w r :
  (draw_edge (arg_index, fake_node_ctr) arg w).1 = Some r ->
  r = (Int64.to_u64 (arg_index + 1),
       if pass.needs_fake_node (pass.heap w) height_maps node arg
       then Int64.to_u64 (fake_node_ctr + 1) else fake_node_ctr).
Proof.
  unfold pass.draw_edge, pass.needs_fake_node.
  rewrite !bind_load. cbv zeta. cbn [fst snd].
  destruct (String.eqb (pass.description (pass.deref (pass.heap w) arg)) "Constant"
            || String.eqb (pass.description (pass.deref (pass.heap w) arg))
                 "Parameter").
  - cbn [orb]. intros H. do 3 locals_step H. by injection H as <-.
  - cbn [orb].
    destruct (pass.max_jump_distance <? pass.jump_distance height_maps arg node).
    + intros H. do 10 locals_step H. by injection H as <-.
    + intros H. do 6 locals_step H. by injection H as <-.
Qed.

Lemma for_each_draw_edge_locals args arg_index fake_node_ctr w r :
  0 <= arg_index -> 0 <= fake_node_ctr ->
  arg_index + Z.of_nat (length args) < 2 ^ 64 ->
  fake_node_ctr + Z.of_nat (length args) < 2 ^ 64 ->
  (pass.for_each args draw_edge (arg_index, fake_node_ctr) w).1 = Some r ->
  r = (arg_index + Z.of_nat (length args),
       fake_node_ctr
       + Z.of_nat (length (List.filter
                             (pass.needs_fake_node (pass.heap w) height_maps node)
                             args))).
Proof.
  revert arg_index fake_node_ctr w.
  induction args as [|arg args IH];
    intros arg_index fake_node_ctr w Hi Hc Hil Hcl H.
  - cbn in H. injection H as <-. cbn. f_equal; lia.
  - cbn [pass.for_each] in H.
    apply bind_Some_inv in H as (locals & Hedge & H).
    apply draw_edge_locals in Hedge. subst locals.
    pose proof (preserves_graph_draw_edge get_shape vector_to_string
                  c_type_string join this height_maps node
                  (arg_index, fake_node_ctr) arg w) as Hheap.
    cbn [length] in Hil, Hcl.
    pose proof (List.filter_length_le
                  (pass.needs_fake_node (pass.heap w) height_maps node) args)
      as Hfl.
    cbn [List.filter length].
    destruct (pass.needs_fake_node (pass.heap w) height_maps node arg).
    + apply IH in H; rewrite ?to_u64_small by lia; try lia.
      rewrite Hheap in H. rewrite !to_u64_small in H by lia. subst r.
      cbn [length]. f_equal; lia.
    + apply IH in H; rewrite ?to_u64_small by lia; try lia.
      rewrite Hheap in H. rewrite !to_u64_small in H by lia. subst r.
      f_equal; lia.
Qed.

End Counters.

(** X16.  While the counters stay below 2^64, whenever drawing a node
    returns, it returns the fake-node counter it was given advanced by the
    number of the node's arguments that are drawn through a fake node (a
    Constant or Parameter argument, or an edge whose jump distance exceeds
    20); and it does return wherever nothing to describe makes [get_shape]
    throw. *)
Theorem draw_node_counts_fake_nodes
    (get_shape : pass.Node -> option Shape) (vector_to_string : Shape -> string)
    (c_type_string : element.Type_t -> string)
    (join : list string -> string -> string)
    (this : pass.VisualizeTree)
    (height_maps : gmap pass.NodePtr pass.HeightMap)
    (fake_node_ctr : Z) (node : pass.NodePtr) (w : pass.World) :
  0 <= fake_node_ctr ->
  fake_node_ctr
  + Z.of_nat (length (pass.get_arguments (pass.deref (pass.heap w) node)))
    < 2 ^ 64 ->
  (forall r,
     (pass.draw_node get_shape vector_to_string c_type_string join this
        height_maps fake_node_ctr node w).1 = Some r ->
     r = fake_node_ctr
         + Z.of_nat
             (length
                (List.filter (pass.needs_fake_node (pass.heap w) height_maps node)
                   (pass.get_arguments (pass.deref (pass.heap w) node)))))
  /\ (pass.describable get_shape w ->
      (pass.draw_node get_shape vector_to_string c_type_string join this
         height_maps fake_node_ctr node w).1
      = Some
          (fake_node_ctr
           + Z.of_nat
               (length
                  (List.filter
                     (pass.needs_fake_node (pass.heap w) height_maps node)
                     (pass.get_arguments (pass.deref (pass.heap w) node)))))).
Proof.
  intros Hc Hcl.
  assert (Hvalue : forall r,
            (pass.draw_node get_shape vector_to_string c_type_string join this
               height_maps fake_node_ctr node w).1 = Some r ->
            r = fake_node_ctr
                + Z.of_nat
                    (length
                       (List.filter
                          (pass.needs_fake_node (pass.heap w) height_maps node)
                          (pass.get_arguments (pass.deref (pass.heap w) node))))).
  { intros r. unfold pass.draw_node. rewrite bind_load. intros H.
    apply bind_Some_inv in H as (locals & Hlocals & H).
    apply for_each_draw_edge_locals in Hlocals; [|lia..].
    subst locals. cbn in H. by injection H as <-. }
  split; [exact Hvalue|].
  intros Hw.
  destruct (returns_draw_node get_shape vector_to_string c_type_string join
              this height_maps fake_node_ctr node w Hw) as [[r Hr] _].
  rewrite Hr. f_equal. by apply Hvalue.
Qed.

(** On the path, B has the single argument A, a Parameter: drawing B
    returns, having used one fake node. *)
Lemma draw_node_counts_fake_nodes_witness :
  (pass.draw_node pass.get_static_shape (fun _ => EmptyString)
     (fun _ => EmptyString) (fun _ _ => EmptyString) pass.plain_pass
     (pass.compute_height_maps pass.sort_by_reversal pass.chain_heap
        pass.chain)
     0 2%nat pass.chain_world).1 = Some (0 + 1).
Proof.
  refine (proj2 (draw_node_counts_fake_nodes
                   pass.get_static_shape (fun _ => EmptyString)
                   (fun _ => EmptyString) (fun _ _ => EmptyString)
                   pass.plain_pass
                   (pass.compute_height_maps pass.sort_by_reversal
                      pass.chain_heap pass.chain)
                   0 2%nat pass.chain_world _ _) _).
  - lia.
  - vm_compute. reflexivity.
  - left. reflexivity.
Defined.

(** ** More on the inference rule of PriorBoxClustered *)

Lemma prior_boxes_extent_range h w p :
  0 <= op.prior_boxes_extent h w p < 2 ^ 64
  /\ op.prior_boxes_extent h w p mod 4 = 0.
Proof.
  rewrite prior_boxes_extent_mod.
  pose proof (Z.mod_pos_bound (4 * h * w * p) (2 ^ 64) ltac:(lia)) as Hb.
  split; [exact Hb|].
  pose proof (Z.div_mod (4 * h * w * p) (2 ^ 64) ltac:(lia)) as Hdm.
  replace ((4 * h * w * p) mod 2 ^ 64)
    with ((h * w * p - 2 ^ 62 * ((4 * h * w * p) / 2 ^ 64)) * 4) by lia.
  apply Z_mod_mult.
Qed.

(** X17.  Every node a construction returns has exactly one output, of
    element type f32, and has input 0 and only input 0 flagged as relevant
    to its shape; the output's shape is either fully dynamic or the static
    shape {2, e} with e a multiple of 4 in [0, 2^64), and e is 0 as soon as
    one of the two constant extents or num_priors is 0. *)
Theorem constructed_node_output
    (layer image : op.Node) (num_priors : Z) (widths heights : list op.float)
    (clip : bool) (step_widths step_heights offset : op.float)
    (variances : list op.float) (node : op.PriorBoxClustered) :
  op.PriorBoxClustered_new layer image num_priors widths heights clip
    step_widths step_heights offset variances = inr node ->
  op.m_input_is_relevant_to_shape node = [true; false]
  /\ exists ps,
       op.m_outputs node = [(element.f32, ps)]
       /\ (ps = PartialShape.rank_dynamic /\ op.as_Constant layer = None
           \/ exists c e,
                op.as_Constant layer = Some c
                /\ ps = PartialShape.of_shape [2; e]
                /\ 0 <= e < 2 ^ 64
                /\ e mod 4 = 0
                /\ (op.read_i64 (op.get_data_ptr c) 0 = 0
                    \/ op.read_i64 (op.get_data_ptr c) 1 = 0
                    \/ num_priors = 0 -> e = 0)).
Proof.
  intros Hnode. apply construct_inr_inv in Hnode as [_ Hnode].
  destruct (op.as_Constant layer) as [c|].
  - destruct Hnode as [_ ->]. split; [reflexivity|].
    eexists. split; [reflexivity|]. right. exists c. eexists.
    split; [reflexivity|]. split; [reflexivity|].
    destruct (prior_boxes_extent_range (op.read_i64 (op.get_data_ptr c) 0)
                (op.read_i64 (op.get_data_ptr c) 1) num_priors) as [Hr Hm].
    split; [exact Hr|]. split; [exact Hm|].
    intros Hzero. rewrite prior_boxes_extent_mod.
    replace (4 * op.read_i64 (op.get_data_ptr c) 0
             * op.read_i64 (op.get_data_ptr c) 1 * num_priors) with 0
      by (destruct Hzero as [-> | [-> | ->]]; lia).
    reflexivity.
  - subst node. split; [reflexivity|].
    eexists. split; [reflexivity|]. by left.
Qed.

Lemma constructed_node_output_witness :
  exists node,
    op.prior_box (op.constant_i64 [2] [0; 7]) (op.parameter element.i64 [2])
                 1 [0] [0] = inr node
    /\ op.m_input_is_relevant_to_shape node = [true; false]
    /\ op.m_outputs node = [(element.f32, PartialShape.of_shape [2; 0])].
Proof.
  eexists. split; [vm_compute; reflexivity|].
  pose proof (constructed_node_output
                (op.constant_i64 [2] [0; 7]) (op.parameter element.i64 [2])
                1 [0] [0] false 0 0 0 [] _ eq_refl) as [Hflags _].
  split; [exact Hflags|reflexivity].
Defined.

(** X18.  Copying a constructed node with its own arguments gives the node
    back: same arguments, attributes, flags and output. *)
Theorem copy_with_own_arguments
    (layer image : op.Node) (num_priors : Z) (widths heights : list op.float)
    (clip : bool) (step_widths step_heights offset : op.float)
    (variances : list op.float) (this : op.PriorBoxClustered) :
  op.PriorBoxClustered_new layer image num_priors widths heights clip
    step_widths step_heights offset variances = inr this ->
  op.copy_with_new_args this (op.get_arguments this) = inr this.
Proof.
  intros Hthis.
  destruct (construct_inr_members _ _ _ _ _ _ _ _ _ _ _ Hthis)
    as (Hargs & Hn & Hw & Hh & Hc & Hsw & Hsh & Ho & Hv).
  unfold op.copy_with_new_args, op.check_new_args_count.
  rewrite Hargs, Hn, Hw, Hh, Hc, Hsw, Hsh, Ho, Hv. exact Hthis.
Qed.

Lemma copy_with_own_arguments_witness :
  exists this,
    op.prior_box (op.constant_i64 [2] [3; 4]) (op.parameter element.i64 [2])
                 1 [0] [0] = inr this
    /\ op.copy_with_new_args this (op.get_arguments this) = inr this.
Proof.
  eexists. split; [vm_compute; reflexivity|].
  exact (copy_with_own_arguments
           (op.constant_i64 [2] [3; 4]) (op.parameter element.i64 [2])
           1 [0] [0] false 0 0 0 [] _ eq_refl).
Defined.

(** X19.  Running the inference rule again on a constructed node, as the
    graph does after a rewrite that left its inputs alone, succeeds and
    returns the node unchanged. *)
Theorem inference_is_idempotent
    (layer image : op.Node) (num_priors : Z) (widths heights : list op.float)
    (clip : bool) (step_widths step_heights offset : op.float)
    (variances : list op.float) (node : op.PriorBoxClustered) :
  op.PriorBoxClustered_new layer image num_priors widths heights clip
    step_widths step_heights offset variances = inr node ->
  op.validate_and_infer_types node = inr node.
Proof.
  intros Hnode. pose proof Hnode as Hinv.
  apply construct_inr_inv in Hinv as [Hchk Hinv].
  unfold op.common_checks in Hchk.
  repeat (apply andb_prop in Hchk as [Hchk ?]).
  destruct (op.as_Constant layer) as [c|] eqn:Hc.
  - destruct Hinv as [Hsz ->].
    unfold op.validate_and_infer_types. cbn. rewrite Hchk. cbn.
    repeat match goal with H : _ = true |- _ => rewrite H; cbn end.
    rewrite Hc. cbn. rewrite Hsz. reflexivity.
  - subst node.
    unfold op.validate_and_infer_types. cbn. rewrite Hchk. cbn.
    repeat match goal with H : _ = true |- _ => rewrite H; cbn end.
    rewrite Hc. reflexivity.
Qed.

Lemma inference_is_idempotent_witness :
  exists node,
    op.prior_box (op.constant_i64 [2] [3; 4]) (op.parameter element.i64 [2])
                 1 [0] [0] = inr node
    /\ op.validate_and_infer_types node = inr node.
Proof.
  eexists. split; [vm_compute; reflexivity|].
  exact (inference_is_idempotent
           (op.constant_i64 [2] [3; 4]) (op.parameter element.i64 [2])
           1 [0] [0] false 0 0 0 [] _ eq_refl).
Defined.


(** ** Nodes without arguments *)

Section Isolated.

Variable topological_sort : gmap pass.NodePtr pass.Node -> list pass.NodePtr
                            -> list pass.NodePtr.
Variable traverse_nodes : gmap pass.NodePtr pass.Node -> pass.Function
                          -> list pass.NodePtr.
Variable get_shape : pass.Node -> option Shape.
Variable vector_to_string : Shape -> string.
Variable c_type_string : element.Type_t -> string.
Variable join : list string -> string -> string.
Variable this : pass.VisualizeTree.

Lemma draw_node_no_arguments height_maps fake_node_ctr node w :
  pass.get_arguments (pass.deref (pass.heap w) node) = [] ->
  pass.draw_node get_shape vector_to_string c_type_string join this
    height_maps fake_node_ctr node w = (Some fake_node_ctr, w).
Proof.
  intros Hargs. unfold pass.draw_node. rewrite bind_load, Hargs. reflexivity.
Qed.

Lemma for_each_draw_node_no_arguments height_maps nodes fake_node_ctr w :
  (forall node, node ∈ nodes ->
     pass.get_arguments (pass.deref (pass.heap w) node) = []) ->
  pass.for_each nodes
    (pass.draw_node get_shape vector_to_string c_type_string join this
       height_maps) fake_node_ctr w
  = (Some fake_node_ctr, w).
Proof.
  revert fake_node_ctr. induction nodes as [|n nodes IH]; intros ctr Hall;
    [reflexivity|].
  cbn [pass.for_each].
  rewrite (bind_Some _ _ w ctr)
    by (by rewrite draw_node_no_arguments by (apply Hall, list_elem_of_here)).
  rewrite draw_node_no_arguments by (apply Hall, list_elem_of_here).
  cbn [snd]. apply IH. intros node Hin.
  by apply Hall, list_elem_of_further.
Qed.

Lemma for_each_function_no_arguments functions w :
  (forall f node, f ∈ functions -> node ∈ traverse_nodes (pass.heap w) f ->
     pass.get_arguments (pass.deref (pass.heap w) node) = []) ->
  pass.for_each functions
    (pass.visualize_function topological_sort traverse_nodes get_shape
       vector_to_string c_type_string join this) tt w
  = (Some tt, w).
Proof.
  induction functions as [|f functions IH]; intros Hall; [reflexivity|].
  cbn [pass.for_each].
  assert (Hf : pass.visualize_function topological_sort traverse_nodes get_shape
                 vector_to_string c_type_string join this tt f w = (Some tt, w)).
  { unfold pass.visualize_function. rewrite bind_gets. cbv zeta.
    erewrite bind_Some; rewrite for_each_draw_node_no_arguments;
      try reflexivity;
      intros node Hin; apply (Hall f node); try apply list_elem_of_here;
      exact Hin. }
  rewrite (bind_Some _ _ w tt) by (by rewrite Hf).
  rewrite Hf. cbn [snd]. apply IH. intros f' node Hf' Hin.
  apply (Hall f' node); [by apply list_elem_of_further|exact Hin].
Qed.

End Isolated.

(** X20.  Only edges are drawn.  When no traversed node of any function has
    an argument, and in particular on an empty module, [run_on_module]
    draws nothing and marks no node: it does what [render] alone does, and
    the file it writes holds the text gathered before the call. *)
Theorem run_on_module_without_edges
    (topological_sort : gmap pass.NodePtr pass.Node -> list pass.NodePtr
                        -> list pass.NodePtr)
    (traverse_nodes : gmap pass.NodePtr pass.Node -> pass.Function
                      -> list pass.NodePtr)
    (get_shape : pass.Node -> option Shape) (vector_to_string : Shape -> string)
    (c_type_string : element.Type_t -> string)
    (join : list string -> string -> string) (_WIN32 : bool)
    (this : pass.VisualizeTree) (functions : list pass.Function)
    (w : pass.World) :
  (forall f node, f ∈ functions -> node ∈ traverse_nodes (pass.heap w) f ->
     pass.get_arguments (pass.deref (pass.heap w) node) = []) ->
  (pass.run_on_module topological_sort traverse_nodes get_shape
     vector_to_string c_type_string join _WIN32 this functions w).2
  = (pass.render _WIN32 this w).2
  /\ pass.m_ss
       (pass.run_on_module topological_sort traverse_nodes get_shape
          vector_to_string c_type_string join _WIN32 this functions w).2
     = pass.m_ss w
  /\ pass.m_nodes_with_attributes
       (pass.run_on_module topological_sort traverse_nodes get_shape
          vector_to_string c_type_string join _WIN32 this functions w).2
     = pass.m_nodes_with_attributes w.
Proof.
  intros Hall.
  pose proof (for_each_function_no_arguments topological_sort traverse_nodes
                get_shape vector_to_string c_type_string join this functions w
                Hall) as Hdrawing.
  destruct (run_on_module_cases topological_sort traverse_nodes get_shape
              vector_to_string c_type_string join _WIN32 this functions w)
    as [[Hthrown _]|[_ ->]].
  - rewrite Hdrawing in Hthrown. discriminate.
  - rewrite Hdrawing. cbn [snd].
    destruct (render_spec _WIN32 this w) as (_ & _ & _ & Hs & Hm & _).
    done.
Qed.

(** A module whose single function is one unused Parameter. *)
Lemma run_on_module_without_edges_witness :
  pass.m_ss
    (pass.run_on_module pass.sort_by_reversal pass.traverse_ops
       pass.get_static_shape (fun _ => EmptyString) (fun _ => EmptyString)
       (fun _ _ => EmptyString) false pass.plain_pass
       [{| pass.get_ops := [1%nat] |}]
       {| pass.heap := pass.unused_parameter_heap;
          pass.environ := ∅;
          pass.can_open := fun _ => true;
          pass.files := [];
          pass.commands := [];
          pass.m_ss := EmptyString;
          pass.m_nodes_with_attributes := ∅;
          pass.nvtos := None;
          pass.nvtot := None |}).2
  = EmptyString.
Proof.
  refine (proj1 (proj2 (run_on_module_without_edges pass.sort_by_reversal
            pass.traverse_ops
            pass.get_static_shape (fun _ => EmptyString) (fun _ => EmptyString)
            (fun _ _ => EmptyString) false pass.plain_pass
            [{| pass.get_ops := [1%nat] |}]
            {| pass.heap := pass.unused_parameter_heap;
               pass.environ := ∅;
               pass.can_open := fun _ => true;
               pass.files := [];
               pass.commands := [];
               pass.m_ss := EmptyString;
               pass.m_nodes_with_attributes := ∅;
               pass.nvtos := None;
               pass.nvtot := None |} _))).
  intros f node Hf Hnode.
  apply list_elem_of_In in Hf. destruct Hf as [<-|[]].
  apply list_elem_of_In in Hnode. destruct Hnode as [<-|[]].
  reflexivity.
Defined.
